(** * MARS simulator core: the run/stop/step controller of [Simulator]

    Shallow embedding of [sim/src/core/Simulator.h].  The header defines
    [StartSimulation] and [StopSimulation] inline; the other members it only
    declares are modelled further down from the design document and are
    marked as such. *)

From Stdlib Require Import ZArith List String Bool.
From Stdlib Require Import Lia.
Import ListNotations.
Open Scope Z_scope.

(** ** Data model *)

(** [enum Status { UNKNOWN = -1, STOPPED = 0, RUNNING = 1, STOPPING = 2,
    STEPPING = 3 }] *)
Inductive Status : Type := UNKNOWN | STOPPED | RUNNING | STOPPING | STEPPING.

Definition Status_value (s : Status) : Z :=
  match s with
  | UNKNOWN => -1
  | STOPPED => 0
  | RUNNING => 1
  | STOPPING => 2
  | STEPPING => 3
  end.

(** [a == b] and [a != b] on the enumeration compare the underlying values. *)
Definition Status_eqb (a b : Status) : bool := Status_value a =? Status_value b.
Definition Status_neqb (a b : Status) : bool := negb (Status_eqb a b).

(** [struct LoadOptions] *)
Record LoadOptions : Type := {
  filename : string;
  robotname : string;
  wasRunning : bool
}.

(** Types the header uses and takes from other headers
    ([mars/interfaces], [mars/utils], [mars/cfg_manager], [mars/data_broker]).
    Their contents play no part in the controller, so they stay abstract. *)
Class Externals : Type := {
  sReal : Type;                (* interfaces::sReal *)
  double : Type;               (* double *)
  Vector : Type;               (* utils::Vector *)
  pluginStruct : Type;         (* interfaces::pluginStruct *)
  cfgPropertyStruct : Type;    (* cfg_manager::cfgPropertyStruct *)
  DataPackage : Type;          (* data_broker::DataPackage *)
  ControlCenterPtr : Type;     (* interfaces::ControlCenter* *)
  PhysicsInterfacePtr : Type;  (* interfaces::PhysicsInterface* *)
  PhysicsError : Type          (* interfaces::PhysicsError *)
}.

Definition ThreadId : Type := nat.

Declare Scope sim_scope.
Delimit Scope sim_scope with sim.

Section Controller.
Context {ext : Externals}.

(** The data members of [class Simulator], in declaration order. *)
Record Simulator : Type := {
  filesToLoad : list LoadOptions;
  sim_fault : bool;
  exit_sim : bool;
  allow_draw : bool;
  sync_graphics : bool;
  cameraMenuCheckedIndex : Z;
  simulationStatus : Status;
  control : ControlCenterPtr;
  b_SceneChanged : bool;
  reloadSim : bool;
  running : Z;
  was_running : Z;
  kill_sim : bool;
  show_time : bool;
  sync_time : sReal;
  my_real_time : bool;
  fast_step : bool;
  erased_active : bool;
  sync_count : Z;
  physics_mutex_count : Z;
  physics : PhysicsInterfacePtr;
  calc_ms : double;
  load_option : Z;
  std_port : Z;
  gravity : Vector;
  allPlugins : list pluginStruct;
  newPlugins : list pluginStruct;
  activePlugins : list pluginStruct;
  guiPlugins : list pluginStruct;
  scenename : string;
  arg_v_scene_name : list string;
  arg_actual : Z;
  arg_no_gui : Z;
  arg_run : Z;
  arg_grid : Z;
  arg_ortho : Z;
  config_dir : string;
  cfgCalcMs : cfgPropertyStruct;
  cfgFaststep : cfgPropertyStruct;
  cfgRealtime : cfgPropertyStruct;
  cfgDebugTime : cfgPropertyStruct;
  cfgSyncGui : cfgPropertyStruct;
  cfgDrawContact : cfgPropertyStruct;
  cfgGX : cfgPropertyStruct;
  cfgGY : cfgPropertyStruct;
  cfgGZ : cfgPropertyStruct;
  cfgWorldErp : cfgPropertyStruct;
  cfgWorldCfm : cfgPropertyStruct;
  cfgVisRep : cfgPropertyStruct;
  cfgSyncTime : cfgPropertyStruct;
  configPath : cfgPropertyStruct;
  dbPhysicsUpdateId : Z;
  dbSimTimeId : Z;
  dbPhysicsUpdatePackage : DataPackage;
  dbSimTimePackage : DataPackage
}.

(** [simulationStatus = v;] *)
Definition set_simulationStatus (v : Status) (s : Simulator) : Simulator :=
  {| filesToLoad := filesToLoad s; sim_fault := sim_fault s;
     exit_sim := exit_sim s; allow_draw := allow_draw s;
     sync_graphics := sync_graphics s;
     cameraMenuCheckedIndex := cameraMenuCheckedIndex s;
     simulationStatus := v;
     control := control s; b_SceneChanged := b_SceneChanged s;
     reloadSim := reloadSim s; running := running s;
     was_running := was_running s; kill_sim := kill_sim s;
     show_time := show_time s; sync_time := sync_time s;
     my_real_time := my_real_time s; fast_step := fast_step s;
     erased_active := erased_active s; sync_count := sync_count s;
     physics_mutex_count := physics_mutex_count s; physics := physics s;
     calc_ms := calc_ms s; load_option := load_option s;
     std_port := std_port s; gravity := gravity s;
     allPlugins := allPlugins s; newPlugins := newPlugins s;
     activePlugins := activePlugins s; guiPlugins := guiPlugins s;
     scenename := scenename s; arg_v_scene_name := arg_v_scene_name s;
     arg_actual := arg_actual s; arg_no_gui := arg_no_gui s;
     arg_run := arg_run s; arg_grid := arg_grid s; arg_ortho := arg_ortho s;
     config_dir := config_dir s; cfgCalcMs := cfgCalcMs s;
     cfgFaststep := cfgFaststep s; cfgRealtime := cfgRealtime s;
     cfgDebugTime := cfgDebugTime s; cfgSyncGui := cfgSyncGui s;
     cfgDrawContact := cfgDrawContact s; cfgGX := cfgGX s; cfgGY := cfgGY s;
     cfgGZ := cfgGZ s; cfgWorldErp := cfgWorldErp s;
     cfgWorldCfm := cfgWorldCfm s; cfgVisRep := cfgVisRep s;
     cfgSyncTime := cfgSyncTime s; configPath := configPath s;
     dbPhysicsUpdateId := dbPhysicsUpdateId s; dbSimTimeId := dbSimTimeId s;
     dbPhysicsUpdatePackage := dbPhysicsUpdatePackage s;
     dbSimTimePackage := dbSimTimePackage s |}.

(** [sim_fault = v;] *)
Definition set_sim_fault (v : bool) (s : Simulator) : Simulator :=
  {| filesToLoad := filesToLoad s; sim_fault := v;
     exit_sim := exit_sim s; allow_draw := allow_draw s;
     sync_graphics := sync_graphics s;
     cameraMenuCheckedIndex := cameraMenuCheckedIndex s;
     simulationStatus := simulationStatus s;
     control := control s; b_SceneChanged := b_SceneChanged s;
     reloadSim := reloadSim s; running := running s;
     was_running := was_running s; kill_sim := kill_sim s;
     show_time := show_time s; sync_time := sync_time s;
     my_real_time := my_real_time s; fast_step := fast_step s;
     erased_active := erased_active s; sync_count := sync_count s;
     physics_mutex_count := physics_mutex_count s; physics := physics s;
     calc_ms := calc_ms s; load_option := load_option s;
     std_port := std_port s; gravity := gravity s;
     allPlugins := allPlugins s; newPlugins := newPlugins s;
     activePlugins := activePlugins s; guiPlugins := guiPlugins s;
     scenename := scenename s; arg_v_scene_name := arg_v_scene_name s;
     arg_actual := arg_actual s; arg_no_gui := arg_no_gui s;
     arg_run := arg_run s; arg_grid := arg_grid s; arg_ortho := arg_ortho s;
     config_dir := config_dir s; cfgCalcMs := cfgCalcMs s;
     cfgFaststep := cfgFaststep s; cfgRealtime := cfgRealtime s;
     cfgDebugTime := cfgDebugTime s; cfgSyncGui := cfgSyncGui s;
     cfgDrawContact := cfgDrawContact s; cfgGX := cfgGX s; cfgGY := cfgGY s;
     cfgGZ := cfgGZ s; cfgWorldErp := cfgWorldErp s;
     cfgWorldCfm := cfgWorldCfm s; cfgVisRep := cfgVisRep s;
     cfgSyncTime := cfgSyncTime s; configPath := configPath s;
     dbPhysicsUpdateId := dbPhysicsUpdateId s; dbSimTimeId := dbSimTimeId s;
     dbPhysicsUpdatePackage := dbPhysicsUpdatePackage s;
     dbSimTimePackage := dbSimTimePackage s |}.


(** [filesToLoad = v;] (push_back and clear are written through it) *)
Definition set_filesToLoad (v : list LoadOptions) (s : Simulator) : Simulator :=
  {| filesToLoad := v; sim_fault := sim_fault s;
     exit_sim := exit_sim s; allow_draw := allow_draw s;
     sync_graphics := sync_graphics s;
     cameraMenuCheckedIndex := cameraMenuCheckedIndex s;
     simulationStatus := simulationStatus s;
     control := control s; b_SceneChanged := b_SceneChanged s;
     reloadSim := reloadSim s; running := running s;
     was_running := was_running s; kill_sim := kill_sim s;
     show_time := show_time s; sync_time := sync_time s;
     my_real_time := my_real_time s; fast_step := fast_step s;
     erased_active := erased_active s; sync_count := sync_count s;
     physics_mutex_count := physics_mutex_count s; physics := physics s;
     calc_ms := calc_ms s; load_option := load_option s;
     std_port := std_port s; gravity := gravity s;
     allPlugins := allPlugins s; newPlugins := newPlugins s;
     activePlugins := activePlugins s; guiPlugins := guiPlugins s;
     scenename := scenename s; arg_v_scene_name := arg_v_scene_name s;
     arg_actual := arg_actual s; arg_no_gui := arg_no_gui s;
     arg_run := arg_run s; arg_grid := arg_grid s; arg_ortho := arg_ortho s;
     config_dir := config_dir s; cfgCalcMs := cfgCalcMs s;
     cfgFaststep := cfgFaststep s; cfgRealtime := cfgRealtime s;
     cfgDebugTime := cfgDebugTime s; cfgSyncGui := cfgSyncGui s;
     cfgDrawContact := cfgDrawContact s; cfgGX := cfgGX s; cfgGY := cfgGY s;
     cfgGZ := cfgGZ s; cfgWorldErp := cfgWorldErp s;
     cfgWorldCfm := cfgWorldCfm s; cfgVisRep := cfgVisRep s;
     cfgSyncTime := cfgSyncTime s; configPath := configPath s;
     dbPhysicsUpdateId := dbPhysicsUpdateId s; dbSimTimeId := dbSimTimeId s;
     dbPhysicsUpdatePackage := dbPhysicsUpdatePackage s;
     dbSimTimePackage := dbSimTimePackage s |}.

(** Every data member other than [simulationStatus] has the same value in
    [a] and in [b]. *)
Definition others_unchanged (a b : Simulator) : Prop :=
  filesToLoad b = filesToLoad a /\ sim_fault b = sim_fault a /\
  exit_sim b = exit_sim a /\ allow_draw b = allow_draw a /\
  sync_graphics b = sync_graphics a /\
  cameraMenuCheckedIndex b = cameraMenuCheckedIndex a /\
  control b = control a /\ b_SceneChanged b = b_SceneChanged a /\
  reloadSim b = reloadSim a /\ running b = running a /\
  was_running b = was_running a /\ kill_sim b = kill_sim a /\
  show_time b = show_time a /\ sync_time b = sync_time a /\
  my_real_time b = my_real_time a /\ fast_step b = fast_step a /\
  erased_active b = erased_active a /\ sync_count b = sync_count a /\
  physics_mutex_count b = physics_mutex_count a /\ physics b = physics a /\
  calc_ms b = calc_ms a /\ load_option b = load_option a /\
  std_port b = std_port a /\ gravity b = gravity a /\
  allPlugins b = allPlugins a /\ newPlugins b = newPlugins a /\
  activePlugins b = activePlugins a /\ guiPlugins b = guiPlugins a /\
  scenename b = scenename a /\ arg_v_scene_name b = arg_v_scene_name a /\
  arg_actual b = arg_actual a /\ arg_no_gui b = arg_no_gui a /\
  arg_run b = arg_run a /\ arg_grid b = arg_grid a /\
  arg_ortho b = arg_ortho a /\ config_dir b = config_dir a /\
  cfgCalcMs b = cfgCalcMs a /\ cfgFaststep b = cfgFaststep a /\
  cfgRealtime b = cfgRealtime a /\ cfgDebugTime b = cfgDebugTime a /\
  cfgSyncGui b = cfgSyncGui a /\ cfgDrawContact b = cfgDrawContact a /\
  cfgGX b = cfgGX a /\ cfgGY b = cfgGY a /\ cfgGZ b = cfgGZ a /\
  cfgWorldErp b = cfgWorldErp a /\ cfgWorldCfm b = cfgWorldCfm a /\
  cfgVisRep b = cfgVisRep a /\ cfgSyncTime b = cfgSyncTime a /\
  configPath b = configPath a /\
  dbPhysicsUpdateId b = dbPhysicsUpdateId a /\
  dbSimTimeId b = dbSimTimeId a /\
  dbPhysicsUpdatePackage b = dbPhysicsUpdatePackage a /\
  dbSimTimePackage b = dbSimTimePackage a.

(** ** Threads and synchronisation members

    The members of type [utils::Mutex], [utils::ReadWriteLock] and
    [utils::WaitCondition] hold no data of the simulator.  What a program can
    tell about them is which threads hold or are blocked on them, and that is
    recorded here, next to the data members: a mutex is held or free, the
    read-write lock counts its readers and knows whether it is write-locked,
    and a wait condition has the threads blocked in its [wait]. *)
Record Threads : Type := {
  pluginLocker_readers : nat;
  pluginLocker_writer : bool;
  externalMutex_held : bool;
  coreMutex_held : bool;
  physicsMutex_held : bool;
  physicsCountMutex_held : bool;
  stepping_mutex_held : bool;
  stepping_wc_waiters : list ThreadId   (* blocked in stepping_wc.wait *)
}.

Definition set_stepping_mutex_held (v : bool) (y : Threads) : Threads :=
  {| pluginLocker_readers := pluginLocker_readers y;
     pluginLocker_writer := pluginLocker_writer y;
     externalMutex_held := externalMutex_held y;
     coreMutex_held := coreMutex_held y;
     physicsMutex_held := physicsMutex_held y;
     physicsCountMutex_held := physicsCountMutex_held y;
     stepping_mutex_held := v; stepping_wc_waiters := stepping_wc_waiters y |}.

Definition set_stepping_wc_waiters (v : list ThreadId) (y : Threads)
  : Threads :=
  {| pluginLocker_readers := pluginLocker_readers y;
     pluginLocker_writer := pluginLocker_writer y;
     externalMutex_held := externalMutex_held y;
     coreMutex_held := coreMutex_held y;
     physicsMutex_held := physicsMutex_held y;
     physicsCountMutex_held := physicsCountMutex_held y;
     stepping_mutex_held := stepping_mutex_held y; stepping_wc_waiters := v |}.

(** A simulator object together with the threads around it. *)
Record World : Type := {
  this : Simulator;
  threads : Threads
}.

Definition status (w : World) : Status := simulationStatus (this w).
Definition parked (w : World) : list ThreadId :=
  stepping_wc_waiters (threads w).
Definition mutex_free (w : World) : Prop :=
  stepping_mutex_held (threads w) = false.

(** ** Member functions as computations

    A member function runs on a world.  It either cannot proceed because the
    mutex it asks for is held ([None]: the caller blocks in [lock]), or it
    returns a value, the world it leaves, and the calls it made on its
    collaborators, oldest first. *)
Inductive Effect : Type :=
| WakeAll (woken : list ThreadId)   (* stepping_wc.wakeAll() released these *)
| PhysicsStep                       (* one step of the physics engine *)
| LoadScene (req : LoadOptions).    (* one execution of a load request *)

Definition M (A : Type) : Type := World -> option (A * World * list Effect).

Definition ret {A} (a : A) : M A := fun w => Some (a, w, []).

Definition bind {A B} (m : M A) (f : A -> M B) : M B :=
  fun w =>
    match m w with
    | None => None
    | Some (a, w1, e1) =>
        match f a w1 with
        | None => None
        | Some (b, w2, e2) => Some (b, w2, e1 ++ e2)
        end
    end.

Notation "x <- m ;; k" := (bind m (fun x => k))
  (at level 61, m at next level, right associativity) : sim_scope.
Notation "m ;; k" := (bind m (fun _ => k))
  (at level 61, right associativity) : sim_scope.
Open Scope sim_scope.

Definition emit (e : Effect) : M unit := fun w => Some (tt, w, [e]).
Definition get_this : M Simulator := fun w => Some (this w, w, []).
Definition modify_this (f : Simulator -> Simulator) : M unit :=
  fun w => Some (tt, {| this := f (this w); threads := threads w |}, []).
Definition modify_threads (f : Threads -> Threads) : M unit :=
  fun w => Some (tt, {| this := this w; threads := f (threads w) |}, []).

(** [stepping_mutex.lock()] *)
Definition lock_stepping_mutex : M unit :=
  fun w =>
    if stepping_mutex_held (threads w) then None
    else modify_threads (set_stepping_mutex_held true) w.

(** [stepping_mutex.unlock()] *)
Definition unlock_stepping_mutex : M unit :=
  modify_threads (set_stepping_mutex_held false).

(** [stepping_wc.wakeAll()] *)
Definition wakeAll_stepping_wc : M unit :=
  fun w =>
    (emit (WakeAll (parked w)) ;;
     modify_threads (set_stepping_wc_waiters [])) w.

(** Result, final world and effects of a computation that went through. *)
Definition final {A} (r : option (A * World * list Effect)) : option World :=
  match r with Some (_, w, _) => Some w | None => None end.

(** ** The two members defined in the header *)

(** [virtual void StartSimulation()], lines 91-96. *)
Definition StartSimulation : M unit :=
  lock_stepping_mutex ;;
  modify_this (set_simulationStatus RUNNING) ;;
  wakeAll_stepping_wc ;;
  unlock_stepping_mutex.

(** [virtual void StopSimulation()], lines 97-104.  The [wakeAll] in the
    body of the test is commented out in the source. *)
Definition StopSimulation : M unit :=
  lock_stepping_mutex ;;
  s <- get_this ;;
  (if Status_neqb (simulationStatus s) STOPPED
   then modify_this (set_simulationStatus STOPPING)
   else ret tt) ;;
  unlock_stepping_mutex.

(** [getAllowDraw] and [getSyncGraphics], lines 106-107. *)
Definition getAllowDraw (w : World) : bool := allow_draw (this w).
Definition getSyncGraphics (w : World) : bool := sync_graphics (this w).

(** ** Members the header only declares

    [singleStep], [handleError], [hasSimFault], [loadScene],
    [processRequests] and [run] have no body in the header.  They are
    modelled from the design document, sections 2, 4.1, 4.2, 5 and 7. *)

(** The thread that executes [run]. *)
Definition sim_thread : ThreadId := 0%nat.

(** [stepping_wc.wait(&stepping_mutex)] called by thread [t]: the thread
    joins the waiters and the mutex is released.  The thread goes on, in a
    later iteration, once a [wakeAll] has taken it out of the waiters. *)
Definition wait_stepping_wc (t : ThreadId) : M unit :=
  modify_threads (fun y =>
    set_stepping_mutex_held false
      (set_stepping_wc_waiters (stepping_wc_waiters y ++ [t]) y)).

(** Modelled from the spec: [singleStep] is declared at line 164 without a
    body.  Section 4.1: "STOPPED/STOPPING -> STEPPING on singleStep" and
    "singleStep is rejected (no-op) while RUNNING"; section 9: "StartSimulation
    /singleStep send a run token", which is the signal on the wait condition
    that lines 227-234 of the header introduce "to prevent active waiting for
    an single step or start event".  No transition is given from STEPPING or
    UNKNOWN, and none is made. *)
Definition singleStep : M unit :=
  lock_stepping_mutex ;;
  s <- get_this ;;
  (match simulationStatus s with
   | STOPPED | STOPPING =>
       modify_this (set_simulationStatus STEPPING) ;;
       wakeAll_stepping_wc
   | RUNNING | STEPPING | UNKNOWN => ret tt
   end) ;;
  unlock_stepping_mutex.

(** Modelled from the spec: [handleError] is declared at line 166 without a
    body.  Section 7: a PhysicsError "surfaces a persistent simFault flag
    readable via hasSimFault(); the loop continues ticking (it does not
    auto-stop)". *)
Definition handleError (error : PhysicsError) : M unit :=
  modify_this (set_sim_fault true).

(** Modelled from the spec: [hasSimFault] is declared at line 147 without a
    body.  Section 6: a pure status query; section 7: it reads the fault
    flag. *)
Definition hasSimFault (w : World) : bool := sim_fault (this w).

(** Modelled from the spec: [loadScene] is declared at lines 138-140 without
    a body.  Section 4.2, enqueueLoad: the request is appended to the queue
    and the call returns; [blocking] only delays the return of the caller
    until the request has been executed, and the result code is not
    specified. *)
Definition loadScene (file : string) (wasrunning : bool) (robot : string)
    (threadsave blocking : bool) : M unit :=
  modify_this (fun s =>
    set_filesToLoad
      (filesToLoad s ++
         [{| filename := file; robotname := robot; wasRunning := wasrunning |}])
      s).

(** Modelled from the spec: [loadScene_internal] is declared at line 200
    without a body.  Section 4.2: the load is executed, and a request whose
    caller "indicated the world was previously running, re-arms RUNNING status
    after the load completes; otherwise the world is left STOPPED". *)
Definition loadScene_internal (req : LoadOptions) : M unit :=
  emit (LoadScene req) ;;
  modify_this
    (set_simulationStatus (if wasRunning req then RUNNING else STOPPED)).

(** Modelled from the spec: the queued requests executed one after the
    other, oldest first (section 4.2, "in FIFO arrival order"). *)
Fixpoint execute_requests (reqs : list LoadOptions) : M unit :=
  match reqs with
  | [] => ret tt
  | req :: rest => loadScene_internal req ;; execute_requests rest
  end.

(** Modelled from the spec: [processRequests] is declared at line 198
    without a body; the comment above it says that it handles the cached
    requests and is called by [run].  Section 4.2, drainAndExecute: "processes
    all currently queued requests in FIFO arrival order"; section 3: a request
    is "consumed and discarded". *)
Definition processRequests : M unit :=
  s <- get_this ;;
  execute_requests (filesToLoad s) ;;
  modify_this (set_filesToLoad []).

(** Modelled from the spec: the pause count of [physicsThreadLock] and
    [physicsThreadUnlock] (declared at lines 156-157 without a body), kept in
    the member [physics_mutex_count].  Section 5: "physics stepping is
    suspended while the count is nonzero and resumes only when it returns to
    zero". *)
Definition physics_paused (s : Simulator) : bool :=
  negb (physics_mutex_count s =? 0).

(** Modelled from the spec: the part of [run] that steps the physics
    engine.  Section 2: "one step when RUNNING or once when STEPPING";
    section 5: no step while the pause count is nonzero; section 6: the step
    "reports success/failure", here [fault]; section 7: a failure is handed
    to [handleError].  The result tells whether a step was made. *)
Definition physics_step (fault : option PhysicsError) : M bool :=
  s <- get_this ;;
  match simulationStatus s with
  | RUNNING | STEPPING =>
      if physics_paused s then ret false
      else
        emit PhysicsStep ;;
        (match fault with
         | Some error => handleError error
         | None => ret tt
         end) ;;
        ret true
  | STOPPED | STOPPING | UNKNOWN => ret false
  end.

(** Modelled from the spec: the end of a tick in [run].  Section 3:
    "internal transition at end of a stepping tick"; section 4.1: STEPPING
    "performs exactly one physics tick, then reverts to STOPPED". *)
Definition finish_stepping : M unit :=
  lock_stepping_mutex ;;
  s <- get_this ;;
  (if Status_eqb (simulationStatus s) STEPPING
   then modify_this (set_simulationStatus STOPPED)
   else ret tt) ;;
  unlock_stepping_mutex.

Definition sim_thread_parked (w : World) : bool :=
  existsb (Nat.eqb sim_thread) (parked w).

(** Modelled from the spec: [run] is declared at line 286 without a body.
    This is one iteration of its loop, executed by [sim_thread].  Section
    4.1: "STOPPING -> STOPPED at the next tick boundary"; section 5: "the
    simulation thread parks (condition-wait, not busy-wait) while STOPPED";
    section 2: the loop "drains RequestQueue, advances the PhysicsInterface by
    one step when RUNNING or once when STEPPING"; section 4.1: a stepping tick
    "then reverts to STOPPED"; section 5: the step is suspended while the
    pause count is nonzero, and then the tick is not ended either: the step
    is left to the first iteration that finds the count at zero.  While the
    thread is parked an iteration does nothing.  Plugins, pacing and the
    graphics gate do not touch the status and are left out, and so are
    [exitMars] and the end of the loop: an iteration is one that the loop
    makes. *)
Definition run_iteration (fault : option PhysicsError) : M unit :=
  fun w =>
    if sim_thread_parked w then ret tt w
    else
      (lock_stepping_mutex ;;
       s <- get_this ;;
       (if Status_eqb (simulationStatus s) STOPPING
        then modify_this (set_simulationStatus STOPPED)
        else ret tt) ;;
       s <- get_this ;;
       if Status_eqb (simulationStatus s) STOPPED
       then wait_stepping_wc sim_thread
       else
         unlock_stepping_mutex ;;
         processRequests ;;
         stepped <- physics_step fault ;;
         if stepped : bool then finish_stepping else ret tt) w.

(** Modelled from the spec: the loop of [run] as successive iterations,
    with one report of the engine for each. *)
Fixpoint run_iterations (faults : list (option PhysicsError)) : M unit :=
  match faults with
  | [] => ret tt
  | fault :: rest => run_iteration fault ;; run_iterations rest
  end.

(** ** Sequences of calls *)

Inductive Call : Type := CallStart | CallStop | CallSingleStep.

Definition call (c : Call) : M unit :=
  match c with
  | CallStart => StartSimulation
  | CallStop => StopSimulation
  | CallSingleStep => singleStep
  end.

(** The status before and after each call of a sequence, in order; [None]
    when a call finds the mutex held. *)
Fixpoint transitions (cs : list Call) (w : World)
  : option (list (Status * Call * Status)) :=
  match cs with
  | [] => Some []
  | c :: rest =>
      match call c w with
      | None => None
      | Some (_, w', _) =>
          match transitions rest w' with
          | None => None
          | Some l => Some ((status w, c, status w') :: l)
          end
      end
  end.

(** The state machine as section 4.1 of the design document lists it:
    STOPPED -> RUNNING, RUNNING -> STOPPING, STOPPING -> STOPPED,
    STOPPED/STOPPING -> STEPPING, STEPPING -> STOPPED after its tick, and any
    state -> STOPPED. *)
Definition spec_edge (a b : Status) : bool :=
  match a, b with
  | STOPPED, RUNNING => true
  | RUNNING, STOPPING => true
  | STOPPING, STOPPED => true
  | STOPPED, STEPPING => true
  | STOPPING, STEPPING => true
  | STEPPING, STOPPED => true
  | _, STOPPED => true
  | _, _ => false
  end.

(** A call that leaves the status as it was makes no transition. *)
Definition follows_spec (t : Status * Call * Status) : bool :=
  let '(a, _, b) := t in Status_eqb a b || spec_edge a b.

(** What the code adds to the edges of section 4.1: [StartSimulation] writes
    RUNNING whatever the status was, and [StopSimulation] writes STOPPING
    whenever the status was not STOPPED. *)
Definition follows_code (t : Status * Call * Status) : bool :=
  let '(a, c, b) := t in
  follows_spec t ||
  match c with
  | CallStart => Status_eqb b RUNNING
  | CallStop => Status_eqb b STOPPING && Status_neqb a STOPPED
  | CallSingleStep => false
  end.

Definition stopped_to_stopping (t : Status * Call * Status) : bool :=
  let '(a, _, b) := t in Status_eqb a STOPPED && Status_eqb b STOPPING.

(** Every call of the sequence goes through and every transition it makes
    is one of section 4.1. *)
Definition calls_follow_spec (cs : list Call) (w : World) : Prop :=
  exists l, transitions cs w = Some l /\ forallb follows_spec l = true.

(** Everything the model lets happen to a world: a call of a transition
    method, a load request, an error report, an iteration of the loop. *)
Inductive Op : Type :=
| OpCall (c : Call)
| OpLoadScene (file : string) (wasrunning : bool) (robot : string)
    (threadsave blocking : bool)
| OpHandleError (error : PhysicsError)
| OpIteration (fault : option PhysicsError).

Definition perform (o : Op) : M unit :=
  match o with
  | OpCall c => call c
  | OpLoadScene file wasrunning robot threadsave blocking =>
      loadScene file wasrunning robot threadsave blocking
  | OpHandleError error => handleError error
  | OpIteration fault => run_iteration fault
  end.

Fixpoint perform_all (os : list Op) : M unit :=
  match os with
  | [] => ret tt
  | o :: rest => perform o ;; perform_all rest
  end.


Definition is_PhysicsStep (e : Effect) : bool :=
  match e with PhysicsStep => true | _ => false end.

Definition is_WakeAll (e : Effect) : bool :=
  match e with WakeAll _ => true | _ => false end.

(** A call that changes the status signals the wait condition. *)
Definition status_change_signals (c : Call) (w : World) : Prop :=
  forall w' es,
    call c w = Some (tt, w', es) ->
    status w' <> status w ->
    existsb is_WakeAll es = true.


Definition steps_of (es : list Effect) : nat :=
  List.length (filter is_PhysicsStep es).

(** ** The other members defined in the header *)

(** [int getLibVersion() const {return 1;}], line 79. *)
Definition getLibVersion : Z := 1.

(** [getLibName], line 80. *)
Definition getLibName : string := "mars_sim".

(** [getConfigDir], line 180. *)
Definition getConfigDir (w : World) : string := config_dir (this w).

(** ** Calls of the two transition methods of the header, in sequence *)

Inductive Command : Type := Start | Stop.

Definition command (c : Command) : M unit :=
  match c with
  | Start => StartSimulation
  | Stop => StopSimulation
  end.

Fixpoint commands (cs : list Command) : M unit :=
  match cs with
  | [] => ret tt
  | c :: rest => command c ;; commands rest
  end.

Definition is_Start (c : Command) : bool :=
  match c with Start => true | Stop => false end.

(** The shortest sequence that ends like [cs]: a last [Start] stands for
    the whole sequence, and so does a [Stop], after a [Start] if the sequence
    has one. *)
Definition shortest (cs : list Command) : list Command :=
  match cs with
  | [] => []
  | _ :: _ =>
      match last cs Stop with
      | Start => [Start]
      | Stop => if existsb is_Start cs then [Start; Stop] else [Stop]
      end
  end.

(** The signals of [n] calls of [StartSimulation] when the threads [p] are
    parked before the first: the first releases them, the others nobody. *)
Definition signals (n : nat) (p : list ThreadId) : list Effect :=
  match n with
  | O => []
  | S k => WakeAll p :: repeat (WakeAll []) k
  end.

(** The worlds one call leaves, without the mutex: what the body of
    [StartSimulation] and of [StopSimulation] does between [lock] and
    [unlock]. *)
Definition started (w : World) : World :=
  {| this := set_simulationStatus RUNNING (this w);
     threads := set_stepping_wc_waiters [] (threads w) |}.

Definition stopped (w : World) : World :=
  {| this := if Status_neqb (status w) STOPPED
             then set_simulationStatus STOPPING (this w)
             else this w;
     threads := threads w |}.

Definition after_command (w : World) (c : Command) : World :=
  match c with Start => started w | Stop => stopped w end.

(** ** Two calls at the same time

    The bodies of the two methods, statement by statement.  A thread
    executes its statements in order; [lock] does not go through while the
    mutex is held. *)
Definition StartSimulation_body : list (M unit) :=
  [ modify_this (set_simulationStatus RUNNING);
    wakeAll_stepping_wc ].

Definition StopSimulation_body : list (M unit) :=
  [ s <- get_this ;;
    if Status_neqb (simulationStatus s) STOPPED
    then modify_this (set_simulationStatus STOPPING)
    else ret tt ].

Definition guarded (body : list (M unit)) : list (M unit) :=
  lock_stepping_mutex :: body ++ [unlock_stepping_mutex].

Definition statements (c : Command) : list (M unit) :=
  guarded (match c with
           | Start => StartSimulation_body
           | Stop => StopSimulation_body
           end).

Fixpoint sequence (ms : list (M unit)) : M unit :=
  match ms with
  | [] => ret tt
  | m :: rest => m ;; sequence rest
  end.

(** Two threads in the middle of their calls: the world, the effects so
    far, and the statements each thread has left to execute. *)
Record Race : Type := {
  race_world : World;
  race_effects : list Effect;
  first_left : list (M unit);
  second_left : list (M unit)
}.

(** One turn of the scheduler ([true]: the first thread).  The thread
    executes its next statement; a thread that has finished, or whose
    statement does not go through, lets the turn pass. *)
Definition turn (r : Race) (b : bool) : Race :=
  if b then
    match first_left r with
    | [] => r
    | m :: rest =>
        match m (race_world r) with
        | None => r
        | Some (_, w', e) =>
            {| race_world := w'; race_effects := race_effects r ++ e;
               first_left := rest; second_left := second_left r |}
        end
    end
  else
    match second_left r with
    | [] => r
    | m :: rest =>
        match m (race_world r) with
        | None => r
        | Some (_, w', e) =>
            {| race_world := w'; race_effects := race_effects r ++ e;
               first_left := first_left r; second_left := rest |}
        end
    end.

Definition interleave (sched : list bool) (r : Race) : Race :=
  fold_left turn sched r.

(** Two calls about to begin in the world [w]. *)
Definition race (c1 c2 : Command) (w : World) : Race :=
  {| race_world := w; race_effects := [];
     first_left := statements c1; second_left := statements c2 |}.

Definition finished (r : Race) : Prop :=
  first_left r = [] /\ second_left r = [].

Definition swap (r : Race) : Race :=
  {| race_world := race_world r; race_effects := race_effects r;
     first_left := second_left r; second_left := first_left r |}.

(** A statement that always goes through and leaves the mutex as it is. *)
Definition inert (m : M unit) : Prop :=
  forall w, exists w' e,
    m w = Some (tt, w', e) /\
    stepping_mutex_held (threads w') = stepping_mutex_held (threads w).

(** ** Auxiliary notions for the properties below *)

(** The status that executing [reqs] in order leaves. *)
Definition status_after (reqs : list LoadOptions) (s0 : Status) : Status :=
  fold_left (fun _ r => if wasRunning r then RUNNING else STOPPED) reqs s0.

(** The statuses in which the engine is stepped. *)
Definition steps_in (st : Status) : bool :=
  match st with
  | RUNNING | STEPPING => true
  | STOPPED | STOPPING | UNKNOWN => false
  end.

(** Whether an iteration that neither sleeps nor parks makes a step: the
    status that the queued requests leave asks for one and physics is not
    paused. *)
Definition makes_step (s : Simulator) : bool :=
  steps_in (status_after (filesToLoad s) (simulationStatus s)) &&
  negb (physics_paused s).

(** What such an iteration leaves of the data members: the queue is
    executed and emptied; if a step is made, a fault of the engine raises the
    flag and a stepping tick ends in STOPPED. *)
Definition after_iteration (fault : option PhysicsError) (s : Simulator)
  : Simulator :=
  let st := status_after (filesToLoad s) (simulationStatus s) in
  let s1 := set_filesToLoad [] (set_simulationStatus st s) in
  if makes_step s then
    let s2 := match fault with
              | Some _ => set_sim_fault true s1
              | None => s1
              end in
    if Status_eqb st STEPPING then set_simulationStatus STOPPED s2 else s2
  else s1.

(** Two worlds that differ in the fault flag at most. *)
Definition same_but_fault (w1 w2 : World) : Prop :=
  threads w1 = threads w2 /\
  set_sim_fault false (this w1) = set_sim_fault false (this w2).

(** Two runs that both go through, with the same effects and worlds that
    differ in the fault flag at most, or that both do not. *)
Definition same_run (r1 r2 : option (unit * World * list Effect)) : Prop :=
  match r1, r2 with
  | Some (_, w1, e1), Some (_, w2, e2) => e1 = e2 /\ same_but_fault w1 w2
  | None, None => True
  | _, _ => False
  end.



(** A computation that never lowers the fault flag. *)
Definition keeps_fault {A} (m : M A) : Prop :=
  forall w a w' es,
    m w = Some (a, w', es) ->
    sim_fault (this w) = true -> sim_fault (this w') = true.

(** In the initial world no mutex is held and a thread is parked only
    while the status is STOPPED.  Every operation goes through in such a world
    and leaves such a world. *)
Definition settled (w : World) : Prop :=
  mutex_free w /\ (parked w <> [] -> status w = STOPPED).

(** The first thread is ahead in a race of two guarded bodies [ba] and
    [bb] begun in [w0]: nobody has begun; or the first thread is between its
    [lock] and its [unlock]; or it has finished and the second has not
    begun, is between [lock] and [unlock], or has finished too.  The world
    and the effects are those of the statements executed so far, in that
    order. *)
Definition ahead (ba bb : list (M unit)) (w0 : World) (r : Race) : Prop :=
  (first_left r = guarded ba /\ second_left r = guarded bb /\
   race_world r = w0 /\ race_effects r = [] /\ mutex_free w0) \/
  (exists done rest,
     ba = done ++ rest /\
     first_left r = rest ++ [unlock_stepping_mutex] /\
     second_left r = guarded bb /\
     sequence (lock_stepping_mutex :: done) w0 =
       Some (tt, race_world r, race_effects r) /\
     stepping_mutex_held (threads (race_world r)) = true) \/
  (first_left r = [] /\ second_left r = guarded bb /\
   sequence (guarded ba) w0 = Some (tt, race_world r, race_effects r) /\
   mutex_free (race_world r)) \/
  (exists done rest,
     bb = done ++ rest /\
     first_left r = [] /\
     second_left r = rest ++ [unlock_stepping_mutex] /\
     sequence (guarded ba ++ lock_stepping_mutex :: done) w0 =
       Some (tt, race_world r, race_effects r) /\
     stepping_mutex_held (threads (race_world r)) = true) \/
  (first_left r = [] /\ second_left r = [] /\
   sequence (guarded ba ++ guarded bb) w0 =
     Some (tt, race_world r, race_effects r) /\
   mutex_free (race_world r)).

Definition body_of (c : Command) : list (M unit) :=
  match c with
  | Start => StartSimulation_body
  | Stop => StopSimulation_body
  end.

(** The statements the two threads have left, counted. *)
Definition remaining (r : Race) : nat :=
  (List.length (first_left r) + List.length (second_left r))%nat.

Definition fair_race (ba bb : list (M unit)) (w0 : World) (r : Race) : Prop :=
  ahead ba bb w0 r \/ ahead bb ba w0 (swap r).

(** One of the threads is outside its body, and the mutex is free
    exactly when both are. *)
Definition exclusive (ba bb : list (M unit)) (r : Race) : Prop :=
  ((first_left r = guarded ba \/ first_left r = []) \/
   (second_left r = guarded bb \/ second_left r = [])) /\
  (stepping_mutex_held (threads (race_world r)) = false <->
   (first_left r = guarded ba \/ first_left r = []) /\
   (second_left r = guarded bb \/ second_left r = [])).

End Controller.

Notation "x <- m ;; k" := (bind m (fun x => k))
  (at level 61, m at next level, right associativity) : sim_scope.
Notation "m ;; k" := (bind m (fun _ => k))
  (at level 61, right associativity) : sim_scope.
Open Scope sim_scope.

(** ** A concrete simulator

    The external types are instantiated with plain data, and a simulator in
    the initial state of section 4.1 is given: status STOPPED, every queue
    and list empty, no mutex held.  The numbers are arbitrary. *)
Module Sample.

#[global] Instance plain : Externals := {|
  sReal := Z;
  double := Z;
  Vector := Z * Z * Z;
  pluginStruct := string;
  cfgPropertyStruct := Z;
  DataPackage := list Z;
  ControlCenterPtr := Z;
  PhysicsInterfacePtr := Z;
  PhysicsError := Z
|}.

Definition fresh : Simulator :=
  {| filesToLoad := []; sim_fault := false; exit_sim := false;
     allow_draw := true; sync_graphics := false;
     cameraMenuCheckedIndex := 0; simulationStatus := STOPPED;
     control := 0; b_SceneChanged := false; reloadSim := false;
     running := 0; was_running := 0; kill_sim := false; show_time := false;
     sync_time := 40; my_real_time := false; fast_step := false;
     erased_active := false; sync_count := 0; physics_mutex_count := 0;
     physics := 0; calc_ms := 10; load_option := 0; std_port := 1600;
     gravity := (0, 0, -981);
     allPlugins := []; newPlugins := []; activePlugins := [];
     guiPlugins := []; scenename := ""; arg_v_scene_name := [];
     arg_actual := 0; arg_no_gui := 0; arg_run := 0; arg_grid := 0;
     arg_ortho := 0; config_dir := "."; cfgCalcMs := 0; cfgFaststep := 0;
     cfgRealtime := 0; cfgDebugTime := 0; cfgSyncGui := 0;
     cfgDrawContact := 0; cfgGX := 0; cfgGY := 0; cfgGZ := 0;
     cfgWorldErp := 0; cfgWorldCfm := 0; cfgVisRep := 0; cfgSyncTime := 0;
     configPath := 0; dbPhysicsUpdateId := 0; dbSimTimeId := 0;
     dbPhysicsUpdatePackage := []; dbSimTimePackage := [] |}.

Definition quiet : Threads :=
  {| pluginLocker_readers := 0; pluginLocker_writer := false;
     externalMutex_held := false; coreMutex_held := false;
     physicsMutex_held := false;
     physicsCountMutex_held := false; stepping_mutex_held := false;
     stepping_wc_waiters := [] |}.

(** The simulator as constructed, its thread not yet waiting. *)
Definition idle : World := {| this := fresh; threads := quiet |}.

(** The same with the simulation thread parked on [stepping_wc]. *)
Definition asleep : World :=
  {| this := fresh; threads := set_stepping_wc_waiters [sim_thread] quiet |}.

(** A simulator in a given status, same threads as [idle] or [asleep]. *)
Definition idle_in (s : Status) : World :=
  {| this := set_simulationStatus s fresh; threads := quiet |}.
Definition asleep_in (s : Status) : World :=
  {| this := set_simulationStatus s fresh;
     threads := set_stepping_wc_waiters [sim_thread] quiet |}.

(** An error code of the physics engine. *)
Definition solver_divergence : @PhysicsError plain := 7.

Definition scene_a : LoadOptions :=
  {| filename := "a.scn"; robotname := "r1"; wasRunning := false |}.

(** A running simulator with one request in its queue. *)
Definition queued : World :=
  {| this := set_filesToLoad [scene_a] (set_simulationStatus RUNNING fresh);
     threads := quiet |}.




(** A schedule in which the second thread tries to get in while the first
    is inside its body, and one that leaves the second thread inside. *)
Definition contended : list bool :=
  [true; false; true; false; true; true; false; false; false].

Definition midway : list bool := [false; true; true; false].

End Sample.

(** * Properties *)

Section Properties.
Context {ext : Externals}.

(** ** Closed forms of the member functions *)

Lemma set_simulationStatus_same (s : Simulator) :
  set_simulationStatus (simulationStatus s) s = s.
Proof. destruct s; reflexivity. Qed.

Lemma set_stepping_wc_waiters_same (y : Threads) :
  set_stepping_wc_waiters (stepping_wc_waiters y) y = y.
Proof. destruct y; reflexivity. Qed.

Lemma others_unchanged_set (v : Status) (s : Simulator) :
  others_unchanged s (set_simulationStatus v s).
Proof. unfold others_unchanged; simpl; repeat split. Qed.

Lemma Status_eqb_eq (a b : Status) : Status_eqb a b = true <-> a = b.
Proof. destruct a, b; cbv; split; intro; congruence. Qed.

Lemma Status_neqb_neq (a b : Status) : Status_neqb a b = true <-> a <> b.
Proof. destruct a, b; cbv; split; intro; congruence. Qed.

(** A world whose stepping mutex is free, with the mutex made explicit. *)
Ltac open_world w :=
  let s := fresh "s" in
  let y := fresh "y" in
  destruct w as [s y]; destruct y;
  unfold mutex_free, status, parked in *; simpl in *; subst.

Lemma lock_blocks (w : World) :
  stepping_mutex_held (threads w) = true -> lock_stepping_mutex w = None.
Proof. unfold lock_stepping_mutex; intros ->; reflexivity. Qed.

Lemma StartSimulation_run (w : World) :
  mutex_free w ->
  StartSimulation w =
  Some (tt,
        {| this := set_simulationStatus RUNNING (this w);
           threads := set_stepping_wc_waiters [] (threads w) |},
        [WakeAll (parked w)]).
Proof. intros F; open_world w; reflexivity. Qed.

Lemma StopSimulation_run (w : World) :
  mutex_free w ->
  StopSimulation w =
  Some (tt,
        {| this := if Status_neqb (status w) STOPPED
                   then set_simulationStatus STOPPING (this w)
                   else this w;
           threads := threads w |},
        []).
Proof.
  intros F; open_world w.
  unfold StopSimulation, bind, lock_stepping_mutex, get_this; simpl.
  destruct (Status_neqb (simulationStatus s) STOPPED); reflexivity.
Qed.

Lemma singleStep_run (w : World) :
  mutex_free w ->
  singleStep w =
  match status w with
  | STOPPED | STOPPING =>
      Some (tt,
            {| this := set_simulationStatus STEPPING (this w);
               threads := set_stepping_wc_waiters [] (threads w) |},
            [WakeAll (parked w)])
  | RUNNING | STEPPING | UNKNOWN => Some (tt, w, [])
  end.
Proof.
  intros F; open_world w.
  unfold singleStep, bind, lock_stepping_mutex, get_this; simpl.
  destruct (simulationStatus s); reflexivity.
Qed.

Lemma StartSimulation_blocked (w : World) :
  stepping_mutex_held (threads w) = true -> StartSimulation w = None.
Proof. intros H; unfold StartSimulation, bind; rewrite lock_blocks; auto. Qed.

Lemma StopSimulation_blocked (w : World) :
  stepping_mutex_held (threads w) = true -> StopSimulation w = None.
Proof. intros H; unfold StopSimulation, bind; rewrite lock_blocks; auto. Qed.

(** ** StartSimulation and StopSimulation *)

(** C2.  From STOPPED, [StartSimulation] sets the status to RUNNING and
    wakes every thread parked on [stepping_wc]: its one signal releases
    exactly the threads that were parked, and none is parked afterwards. *)
Theorem StartSimulation_from_stopped (w : World) :
  mutex_free w -> status w = STOPPED ->
  exists w',
    StartSimulation w = Some (tt, w', [WakeAll (parked w)]) /\
    status w' = RUNNING /\
    parked w' = [].
Proof.
  intros F _. rewrite (StartSimulation_run w F).
  eexists; split; [reflexivity|]. split; reflexivity.
Qed.

(** C8.  [StartSimulation] sets the status to RUNNING whatever it was
    before, STOPPING, STEPPING and UNKNOWN included; issued after a
    [StopSimulation] that left a stop pending, it cancels the stop: the
    status is RUNNING again. *)
Theorem StartSimulation_unconditional (prior : Status) (w : World) :
  mutex_free w -> status w = prior ->
  (exists w' es,
      StartSimulation w = Some (tt, w', es) /\ status w' = RUNNING) /\
  (exists w1 e1 w2 e2,
      StopSimulation w = Some (tt, w1, e1) /\
      (prior <> STOPPED -> status w1 = STOPPING) /\
      StartSimulation w1 = Some (tt, w2, e2) /\
      status w2 = RUNNING).
Proof.
  intros F P. split.
  - rewrite (StartSimulation_run w F). do 2 eexists; split; reflexivity.
  - rewrite (StopSimulation_run w F).
    eexists; eexists; eexists; eexists.
    split; [reflexivity|]. split.
    + intros N. apply Status_neqb_neq in N. unfold status in *; simpl.
      rewrite P, N; reflexivity.
    + rewrite StartSimulation_run by exact F.
      split; reflexivity.
Qed.

(** C9.  [StopSimulation] sets the status to STOPPING from every prior
    state except STOPPED, and never writes STOPPED: after the call the status
    is STOPPING, or it is STOPPED because it was STOPPED before. *)
Theorem StopSimulation_writes_stopping (w : World) :
  mutex_free w ->
  exists w',
    StopSimulation w = Some (tt, w', []) /\
    (status w <> STOPPED -> status w' = STOPPING) /\
    (status w = STOPPED -> status w' = STOPPED) /\
    (status w' = STOPPING \/ (status w' = STOPPED /\ status w = STOPPED)).
Proof.
  intros F. rewrite (StopSimulation_run w F).
  eexists; split; [reflexivity|].
  unfold status; simpl.
  destruct (simulationStatus (this w)) eqn:E; simpl; rewrite ?E;
    (split; [|split]); intros; try congruence;
    first [ left; reflexivity | right; split; reflexivity ].
Qed.

(** C10.  [StartSimulation] and [StopSimulation] write no data member but
    [simulationStatus]: every other member has the value it had before the
    call.  The mutexes and the read-write lock are as they were
    ([stepping_mutex] is released again), and the threads parked on
    [stepping_wc] are released by [StartSimulation] and left alone by
    [StopSimulation]. *)
Theorem StartSimulation_StopSimulation_frame (w : World) :
  mutex_free w ->
  exists w1 e1 w2 e2,
    StartSimulation w = Some (tt, w1, e1) /\
    StopSimulation w = Some (tt, w2, e2) /\
    others_unchanged (this w) (this w1) /\
    others_unchanged (this w) (this w2) /\
    this w1 = set_simulationStatus RUNNING (this w) /\
    this w2 = set_simulationStatus (status w2) (this w) /\
    threads w1 = set_stepping_wc_waiters [] (threads w) /\
    threads w2 = threads w.
Proof.
  intros F.
  rewrite (StartSimulation_run w F), (StopSimulation_run w F).
  eexists; eexists; eexists; eexists.
  split; [reflexivity|]. split; [reflexivity|].
  unfold status; simpl.
  destruct (Status_neqb (simulationStatus (this w)) STOPPED); simpl;
    repeat apply conj;
    solve [ apply others_unchanged_set
          | reflexivity
          | symmetry; apply set_simulationStatus_same
          | unfold others_unchanged; repeat split ].
Qed.

(** C3.  [StartSimulation] while RUNNING leaves every data member and every
    mutex as it was, the status included, and the whole world when no thread
    is parked; [StopSimulation] while STOPPED leaves the world as it was and
    calls nothing.  Either of them called twice in a row leaves the world that
    one call leaves. *)
Theorem StartSimulation_StopSimulation_idempotent (w : World) :
  mutex_free w ->
  (status w = RUNNING ->
   exists w',
     StartSimulation w = Some (tt, w', [WakeAll (parked w)]) /\
     this w' = this w /\ status w' = RUNNING /\
     threads w' = set_stepping_wc_waiters [] (threads w) /\
     (parked w = [] -> w' = w)) /\
  (status w = STOPPED -> StopSimulation w = Some (tt, w, [])) /\
  (exists w1,
     final (StartSimulation w) = Some w1 /\
     final ((StartSimulation ;; StartSimulation) w) = Some w1) /\
  (exists w2,
     final (StopSimulation w) = Some w2 /\
     final ((StopSimulation ;; StopSimulation) w) = Some w2).
Proof.
  intros F. repeat apply conj.
  - intros R. rewrite (StartSimulation_run w F).
    eexists; split; [reflexivity|]. unfold status in R; simpl.
    rewrite <- R, set_simulationStatus_same.
    repeat apply conj; try reflexivity.
    intros P. destruct w as [s y]; unfold parked in P; simpl in *.
    rewrite <- P, set_stepping_wc_waiters_same; reflexivity.
  - intros S. rewrite (StopSimulation_run w F), S; simpl.
    destruct w; reflexivity.
  - unfold bind. rewrite (StartSimulation_run w F).
    rewrite StartSimulation_run by exact F; simpl.
    eexists; split; [reflexivity|].
    destruct w as [s y]; destruct s, y; reflexivity.
  - unfold bind. rewrite (StopSimulation_run w F).
    rewrite StopSimulation_run by exact F; simpl.
    eexists; split; [reflexivity|]. unfold status; simpl.
    destruct (simulationStatus (this w)) eqn:E; simpl; rewrite ?E; simpl;
      try reflexivity;
      destruct w as [s y]; destruct s; reflexivity.
Qed.

(** ** Signals on the wait condition *)

(** C5, as the code has it.  [StartSimulation] signals [stepping_wc] on
    every call and [singleStep] on every call that changes the status, and
    the signal releases every thread parked there.  [StopSimulation] never
    signals, also when it changes the status: it calls nothing and leaves
    the parked threads parked. *)
Theorem wakes_of_the_transition_methods (w : World) :
  mutex_free w ->
  (exists w',
     StartSimulation w = Some (tt, w', [WakeAll (parked w)]) /\
     parked w' = []) /\
  (exists w' es,
     singleStep w = Some (tt, w', es) /\
     (status w' <> status w ->
      es = [WakeAll (parked w)] /\ parked w' = [])) /\
  (exists w',
     StopSimulation w = Some (tt, w', []) /\
     parked w' = parked w /\
     (status w <> STOPPED -> status w' <> status w \/ status w = STOPPING)).
Proof.
  intros F. repeat apply conj.
  - rewrite (StartSimulation_run w F).
    eexists; split; reflexivity.
  - rewrite (singleStep_run w F).
    destruct (status w) eqn:E; do 2 eexists; (split; [reflexivity|]);
      unfold status in *; simpl; intros N; try congruence;
      split; reflexivity.
  - rewrite (StopSimulation_run w F).
    eexists; split; [reflexivity|]. split; [reflexivity|].
    unfold status; simpl.
    destruct (simulationStatus (this w)); simpl; intros N;
      try congruence; try (left; congruence); right; reflexivity.
Qed.

(** ** Sequences of calls and the state machine *)

Lemma call_step (c : Call) (w : World) :
  mutex_free w ->
  exists w' es,
    call c w = Some (tt, w', es) /\
    mutex_free w' /\
    follows_code (status w, c, status w') = true /\
    stopped_to_stopping (status w, c, status w') = false.
Proof.
  intros F. destruct c; simpl call.
  - rewrite (StartSimulation_run w F).
    do 2 eexists; split; [reflexivity|]. split; [exact F|].
    unfold status; simpl.
    destruct (simulationStatus (this w)); split; reflexivity.
  - rewrite (StopSimulation_run w F).
    do 2 eexists; split; [reflexivity|]. split; [exact F|].
    unfold status; simpl.
    destruct (simulationStatus (this w)) eqn:E; simpl; rewrite ?E;
      split; reflexivity.
  - rewrite (singleStep_run w F).
    destruct (status w) eqn:E; do 2 eexists;
      (split; [reflexivity|]); (split; [exact F|]);
      unfold status in *; simpl; rewrite ?E; split; reflexivity.
Qed.

(** C1, as the code has it.  Every sequence of calls goes through, and each
    transition it makes is an edge of section 4.1, or one that
    [StartSimulation] makes into RUNNING (from any state), or one that
    [StopSimulation] makes into STOPPING (from any state but STOPPED).  No
    call takes STOPPED directly to STOPPING. *)
Theorem calls_follow_code (cs : list Call) (w : World) :
  mutex_free w ->
  exists l,
    transitions cs w = Some l /\
    forallb follows_code l = true /\
    existsb stopped_to_stopping l = false.
Proof.
  revert w. induction cs as [|c cs IH]; intros w F.
  - exists []; repeat split.
  - destruct (call_step c w F) as (w' & es & C & F' & OK & NO).
    destruct (IH w' F') as (l & T & A & E).
    exists ((status w, c, status w') :: l).
    cbn [transitions]. rewrite C, T.
    split; [reflexivity|].
    cbn [forallb existsb]. rewrite OK, NO, A, E. split; reflexivity.
Qed.

(** ** The loop: requests, physics steps, faults *)


Lemma execute_requests_run (reqs : list LoadOptions) (w : World) :
  execute_requests reqs w =
  Some (tt,
        {| this := set_simulationStatus (status_after reqs (status w)) (this w);
           threads := threads w |},
        map LoadScene reqs).
Proof.
  revert w. induction reqs as [|r reqs IH]; intros w.
  - unfold status; simpl. unfold ret.
    rewrite set_simulationStatus_same. destruct w; reflexivity.
  - cbn [execute_requests]. unfold bind at 1.
    unfold loadScene_internal, bind, emit, modify_this. rewrite IH.
    reflexivity.
Qed.

Lemma processRequests_run (w : World) :
  processRequests w =
  Some (tt,
        {| this :=
             set_filesToLoad []
               (set_simulationStatus
                  (status_after (filesToLoad (this w)) (status w)) (this w));
           threads := threads w |},
        map LoadScene (filesToLoad (this w))).
Proof.
  unfold processRequests, bind, get_this.
  rewrite execute_requests_run. unfold modify_this; simpl.
  rewrite app_nil_r. reflexivity.
Qed.

Lemma physics_step_run (fault : option PhysicsError) (w : World) :
  physics_step fault w =
  if steps_in (status w) && negb (physics_paused (this w))
  then Some (true,
             {| this := match fault with
                        | Some _ => set_sim_fault true (this w)
                        | None => this w
                        end;
                threads := threads w |},
             [PhysicsStep])
  else Some (false, w, []).
Proof.
  unfold physics_step, bind, get_this, status.
  destruct (simulationStatus (this w)); simpl; try reflexivity;
    destruct (physics_paused (this w)); simpl; try reflexivity;
    destruct fault; destruct w; reflexivity.
Qed.

Lemma finish_stepping_run (w : World) :
  mutex_free w ->
  finish_stepping w =
  Some (tt,
        {| this := if Status_eqb (status w) STEPPING
                   then set_simulationStatus STOPPED (this w)
                   else this w;
           threads := threads w |},
        []).
Proof.
  intros F; open_world w.
  unfold finish_stepping, bind, lock_stepping_mutex, get_this; simpl.
  destruct (Status_eqb (simulationStatus s) STEPPING); reflexivity.
Qed.

(** An iteration while the simulation thread is parked does nothing. *)
Lemma run_iteration_asleep (fault : option PhysicsError) (w : World) :
  sim_thread_parked w = true -> run_iteration fault w = Some (tt, w, []).
Proof.
  unfold run_iteration. intros ->. reflexivity.
Qed.

(** An iteration of a thread that is not parked waits for the mutex. *)
Lemma run_iteration_blocked (fault : option PhysicsError) (w : World) :
  sim_thread_parked w = false ->
  stepping_mutex_held (threads w) = true ->
  run_iteration fault w = None.
Proof.
  intros P H. unfold run_iteration. rewrite P.
  unfold bind. rewrite lock_blocks by exact H. reflexivity.
Qed.

(** An iteration that finds the status STOPPED or STOPPING parks the
    thread, with the status STOPPED. *)
Lemma run_iteration_parks (fault : option PhysicsError) (w : World) :
  mutex_free w -> sim_thread_parked w = false ->
  status w = STOPPED \/ status w = STOPPING ->
  run_iteration fault w =
  Some (tt,
        {| this := set_simulationStatus STOPPED (this w);
           threads :=
             set_stepping_wc_waiters (parked w ++ [sim_thread]) (threads w) |},
        []).
Proof.
  intros F P S. unfold run_iteration. rewrite P.
  open_world w.
  unfold bind, lock_stepping_mutex, get_this; simpl.
  destruct S as [S|S]; repeat (rewrite S; simpl); [|reflexivity].
  replace (set_simulationStatus STOPPED s) with s;
    [reflexivity | rewrite <- S; symmetry; apply set_simulationStatus_same].
Qed.

(** Any other iteration drains the queue, steps the engine if the status
    asks for it and physics is not paused, and then ends a stepping tick. *)
Lemma run_iteration_awake (fault : option PhysicsError) (w : World) :
  mutex_free w -> sim_thread_parked w = false ->
  status w <> STOPPED -> status w <> STOPPING ->
  run_iteration fault w =
  (processRequests ;;
   stepped <- physics_step fault ;;
   if stepped : bool then finish_stepping else ret tt) w.
Proof.
  intros F P S1 S2. unfold run_iteration. rewrite P.
  open_world w.
  unfold bind, lock_stepping_mutex, get_this; simpl.
  destruct (simulationStatus s) eqn:E; try congruence;
    simpl; rewrite ?E; simpl;
    (destruct (processRequests _) as [[[[] w1] e1]|]; [|reflexivity]);
    (destruct (physics_step fault w1) as [[[b w2] e2]|]; [|reflexivity]);
    destruct b; try reflexivity;
    (destruct (finish_stepping w2) as [[[[] w3] e3]|]; reflexivity).
Qed.

Lemma run_iteration_works (fault : option PhysicsError) (w : World) :
  mutex_free w -> sim_thread_parked w = false ->
  status w <> STOPPED -> status w <> STOPPING ->
  run_iteration fault w =
  Some (tt,
        {| this := after_iteration fault (this w); threads := threads w |},
        map LoadScene (filesToLoad (this w)) ++
        (if makes_step (this w) then [PhysicsStep] else [])).
Proof.
  intros F P S1 S2. rewrite run_iteration_awake by assumption.
  unfold bind. rewrite processRequests_run, physics_step_run.
  unfold after_iteration, makes_step, physics_paused, status; simpl.
  destruct (status_after (filesToLoad (this w))
              (simulationStatus (this w))) eqn:E;
    simpl;
    destruct (physics_mutex_count (this w) =? 0); simpl;
    try (rewrite app_nil_r; reflexivity);
    destruct fault;
    rewrite finish_stepping_run by exact F; unfold status; simpl;
    rewrite ?app_nil_r; reflexivity.
Qed.

Lemma after_iteration_status (fault : option PhysicsError) (s : Simulator) :
  simulationStatus (after_iteration fault s) =
  let st := status_after (filesToLoad s) (simulationStatus s) in
  if makes_step s && Status_eqb st STEPPING then STOPPED else st.
Proof.
  unfold after_iteration; simpl.
  destruct (makes_step s); simpl; [|reflexivity].
  destruct (status_after (filesToLoad s) (simulationStatus s));
    destruct fault; reflexivity.
Qed.

Lemma after_iteration_queue (fault : option PhysicsError) (s : Simulator) :
  filesToLoad (after_iteration fault s) = [].
Proof.
  unfold after_iteration; simpl.
  destruct (makes_step s); simpl; [|reflexivity].
  destruct (status_after (filesToLoad s) (simulationStatus s));
    destruct fault; reflexivity.
Qed.

Lemma after_iteration_fault (fault : option PhysicsError) (s : Simulator) :
  sim_fault (after_iteration fault s) =
  match fault with
  | Some _ => if makes_step s then true else sim_fault s
  | None => sim_fault s
  end.
Proof.
  unfold after_iteration; simpl.
  destruct (makes_step s); simpl; [|destruct fault; reflexivity].
  destruct (status_after (filesToLoad s) (simulationStatus s));
    destruct fault; reflexivity.
Qed.

Lemma after_iteration_paused (fault : option PhysicsError) (s : Simulator) :
  physics_paused (after_iteration fault s) = physics_paused s.
Proof.
  unfold after_iteration, physics_paused; simpl.
  destruct (makes_step s); simpl; [|reflexivity].
  destruct (status_after (filesToLoad s) (simulationStatus s));
    destruct fault; reflexivity.
Qed.


(** Iterations of a running simulator with an empty queue and physics not
    paused: each makes one step, whatever the engine reports, and the status
    stays RUNNING. *)
Lemma run_iteration_running (fault : option PhysicsError) (w : World) :
  mutex_free w -> status w = RUNNING -> sim_thread_parked w = false ->
  filesToLoad (this w) = [] -> physics_paused (this w) = false ->
  exists w',
    run_iteration fault w = Some (tt, w', [PhysicsStep]) /\
    mutex_free w' /\ status w' = RUNNING /\ sim_thread_parked w' = false /\
    filesToLoad (this w') = [] /\ physics_paused (this w') = false /\
    sim_fault (this w') =
      match fault with Some _ => true | None => sim_fault (this w) end.
Proof.
  intros F S P Q U.
  rewrite run_iteration_works by (assumption || congruence).
  assert (K : makes_step (this w) = true).
  { unfold makes_step, status in *. rewrite Q, S, U. reflexivity. }
  rewrite Q, K; simpl.
  eexists; split; [reflexivity|].
  unfold status, sim_thread_parked, parked, mutex_free in *; simpl.
  rewrite after_iteration_status, after_iteration_queue,
    after_iteration_fault, after_iteration_paused, K, Q, S; simpl.
  repeat split; assumption.
Qed.

Lemma run_iterations_running (faults : list (option PhysicsError)) (w : World) :
  mutex_free w -> status w = RUNNING -> sim_thread_parked w = false ->
  filesToLoad (this w) = [] -> physics_paused (this w) = false ->
  exists w',
    run_iterations faults w =
      Some (tt, w', repeat PhysicsStep (List.length faults)) /\
    status w' = RUNNING /\
    (sim_fault (this w) = true -> sim_fault (this w') = true).
Proof.
  revert w. induction faults as [|f faults IH]; intros w F S P Q U.
  - exists w; repeat split; auto.
  - cbn [run_iterations]. unfold bind.
    destruct (run_iteration_running f w F S P Q U)
      as (w1 & R1 & F1 & S1 & P1 & Q1 & U1 & G1).
    destruct (IH w1 F1 S1 P1 Q1 U1) as (w' & R & S' & G).
    rewrite R1, R. exists w'. repeat split; auto.
    intros H. apply G. rewrite G1. destruct f; auto.
Qed.

Lemma steps_of_repeat (n : nat) : steps_of (repeat PhysicsStep n) = n.
Proof. unfold steps_of. induction n; simpl; congruence. Qed.


(** Load requests *)









(** The fault flag *)

Lemma keeps_fault_ret {A} (a : A) : keeps_fault (ret a).
Proof. intros w b w' es H; inversion H; subst; auto. Qed.

Lemma keeps_fault_bind {A B} (m : M A) (f : A -> M B) :
  keeps_fault m -> (forall a, keeps_fault (f a)) -> keeps_fault (bind m f).
Proof.
  intros Hm Hf w b w' es H G. unfold bind in H.
  destruct (m w) as [[[a w1] e1]|] eqn:E1; [|discriminate].
  destruct (f a w1) as [[[b' w2] e2]|] eqn:E2; [|discriminate].
  inversion H; subst. eapply Hf; [exact E2|]. eapply Hm; eauto.
Qed.

Lemma keeps_fault_emit (e : Effect) : keeps_fault (emit e).
Proof. intros w b w' es H; inversion H; subst; auto. Qed.

Lemma keeps_fault_get_this : keeps_fault get_this.
Proof. intros w b w' es H; inversion H; subst; auto. Qed.

Lemma keeps_fault_modify_threads (f : Threads -> Threads) :
  keeps_fault (modify_threads f).
Proof. intros w b w' es H; inversion H; subst; auto. Qed.

Lemma keeps_fault_modify_this (f : Simulator -> Simulator) :
  (forall s, sim_fault s = true -> sim_fault (f s) = true) ->
  keeps_fault (modify_this f).
Proof. intros Hf w b w' es H; inversion H; subst; simpl; auto. Qed.

Lemma keeps_fault_lock : keeps_fault lock_stepping_mutex.
Proof.
  intros w b w' es H. unfold lock_stepping_mutex in H.
  destruct (stepping_mutex_held (threads w)); [discriminate|].
  inversion H; subst; auto.
Qed.

Lemma keeps_fault_unlock : keeps_fault unlock_stepping_mutex.
Proof. apply keeps_fault_modify_threads. Qed.

Lemma keeps_fault_wakeAll : keeps_fault wakeAll_stepping_wc.
Proof. intros w b w' es H; inversion H; subst; auto. Qed.

Lemma keeps_fault_wait (t : ThreadId) : keeps_fault (wait_stepping_wc t).
Proof. apply keeps_fault_modify_threads. Qed.

Create HintDb fault.
#[local] Hint Resolve keeps_fault_ret keeps_fault_emit keeps_fault_get_this
  keeps_fault_modify_threads keeps_fault_lock keeps_fault_unlock
  keeps_fault_wakeAll keeps_fault_wait : fault.

(** Splits a computation at its binds and tests, then closes the leaves. *)
Ltac keeps :=
  repeat first
    [ solve [auto with fault]
    | apply keeps_fault_modify_this; intros ? ?; simpl; solve [auto]
    | match goal with
      | |- keeps_fault (if ?b then _ else _) => destruct b
      | |- keeps_fault (match ?x with _ => _ end) => destruct x
      end
    | apply keeps_fault_bind; [|intros ?] ].

Lemma keeps_fault_call (c : Call) : keeps_fault (call c).
Proof.
  destruct c; simpl;
    unfold StartSimulation, StopSimulation, singleStep; keeps.
Qed.

Lemma keeps_fault_execute_requests (reqs : list LoadOptions) :
  keeps_fault (execute_requests reqs).
Proof.
  induction reqs; simpl; unfold loadScene_internal; keeps.
Qed.

Lemma keeps_fault_run_iteration (fault : option PhysicsError) :
  keeps_fault (run_iteration fault).
Proof.
  intros w b w' es H. unfold run_iteration in H.
  destruct (sim_thread_parked w).
  - inversion H; subst; auto.
  - revert w b w' es H.
    change (keeps_fault
      (lock_stepping_mutex ;;
       s <- get_this ;;
       (if Status_eqb (simulationStatus s) STOPPING
        then modify_this (set_simulationStatus STOPPED)
        else ret tt) ;;
       s <- get_this ;;
       if Status_eqb (simulationStatus s) STOPPED
       then wait_stepping_wc sim_thread
       else
         unlock_stepping_mutex ;;
         processRequests ;;
         stepped <- physics_step fault ;;
         if stepped : bool then finish_stepping else ret tt)).
    pose proof keeps_fault_execute_requests.
    unfold processRequests, physics_step, handleError, finish_stepping.
    keeps.
Qed.

Lemma keeps_fault_perform (o : Op) : keeps_fault (perform o).
Proof.
  destruct o; simpl.
  - apply keeps_fault_call.
  - unfold loadScene; keeps.
  - unfold handleError; keeps.
  - apply keeps_fault_run_iteration.
Qed.

Lemma keeps_fault_perform_all (os : list Op) : keeps_fault (perform_all os).
Proof.
  induction os; simpl.
  - apply keeps_fault_ret.
  - apply keeps_fault_bind; [apply keeps_fault_perform | intros _; exact IHos].
Qed.

(** Whatever the engine reports, an iteration goes through, leaves the same
    status and makes the same calls; the flag is up after it if a step was
    made and the engine reported a fault. *)
Lemma run_iteration_total (fault : option PhysicsError) (w : World) :
  mutex_free w ->
  exists w' es,
    run_iteration fault w = Some (tt, w', es) /\
    (forall other, exists w0,
        run_iteration other w = Some (tt, w0, es) /\ status w0 = status w') /\
    (existsb is_PhysicsStep es = true ->
     fault <> None -> sim_fault (this w') = true).
Proof.
  intros F.
  destruct (sim_thread_parked w) eqn:P.
  { rewrite run_iteration_asleep by exact P.
    do 2 eexists; split; [reflexivity|]. split.
    - intros other. rewrite run_iteration_asleep by exact P.
      eexists; split; reflexivity.
    - simpl; discriminate. }
  destruct (Status_eqb (status w) STOPPED || Status_eqb (status w) STOPPING)
    eqn:S.
  - apply orb_true_iff in S. rewrite !Status_eqb_eq in S.
    rewrite run_iteration_parks by assumption.
    do 2 eexists; split; [reflexivity|]. split.
    + intros other. rewrite run_iteration_parks by assumption.
      eexists; split; reflexivity.
    + simpl; discriminate.
  - apply orb_false_iff in S. destruct S as [S1 S2].
    assert (N1 : status w <> STOPPED)
      by (intros E; apply Status_eqb_eq in E; congruence).
    assert (N2 : status w <> STOPPING)
      by (intros E; apply Status_eqb_eq in E; congruence).
    rewrite run_iteration_works by assumption.
    do 2 eexists; split; [reflexivity|]. split.
    + intros other. rewrite run_iteration_works by assumption.
      eexists; split; [reflexivity|].
      unfold status; simpl. rewrite !after_iteration_status. reflexivity.
    + simpl. rewrite after_iteration_fault. intros E N.
      destruct fault; [|congruence].
      destruct (makes_step (this w)) eqn:T; [reflexivity|].
      rewrite existsb_app in E. apply orb_true_iff in E.
      destruct E as [E|E]; [|discriminate].
      exfalso. clear - E. induction (filesToLoad (this w)); simpl in E; auto;
        discriminate.
Qed.

(** The fault flag is read by [hasSimFault] only: worlds that differ in it
    at most are taken by an iteration to worlds that differ in it at most,
    with the same effects, whatever the engine reports in each. *)
Lemma same_but_fault_refl (w : World) : same_but_fault w w.
Proof. split; reflexivity. Qed.

Lemma same_but_fault_fields (w1 w2 : World) :
  same_but_fault w1 w2 ->
  status w1 = status w2 /\
  filesToLoad (this w1) = filesToLoad (this w2) /\
  physics_paused (this w1) = physics_paused (this w2) /\
  parked w1 = parked w2 /\
  stepping_mutex_held (threads w1) = stepping_mutex_held (threads w2).
Proof.
  intros [T E]. unfold status, parked, physics_paused. rewrite T.
  repeat split.
  - exact (f_equal simulationStatus E).
  - exact (f_equal filesToLoad E).
  - exact (f_equal (fun s => negb (physics_mutex_count s =? 0)) E).
Qed.

Lemma erase_setters (s1 s2 : Simulator) (q : list LoadOptions)
    (st : Status) (b1 b2 : bool) :
  set_sim_fault false s1 = set_sim_fault false s2 ->
  set_sim_fault false
    (set_sim_fault b1 (set_filesToLoad q (set_simulationStatus st s1))) =
  set_sim_fault false
    (set_sim_fault b2 (set_filesToLoad q (set_simulationStatus st s2))).
Proof.
  intros E.
  change (set_filesToLoad q (set_simulationStatus st (set_sim_fault false s1))
          = set_filesToLoad q
              (set_simulationStatus st (set_sim_fault false s2))).
  rewrite E. reflexivity.
Qed.

Lemma erase_after_iteration (f1 f2 : option PhysicsError)
    (s1 s2 : Simulator) :
  set_sim_fault false s1 = set_sim_fault false s2 ->
  set_sim_fault false (after_iteration f1 s1) =
  set_sim_fault false (after_iteration f2 s2).
Proof.
  intros E.
  pose proof (f_equal simulationStatus E) as ES.
  pose proof (f_equal filesToLoad E) as EQ.
  pose proof (f_equal physics_mutex_count E) as EC.
  simpl in ES, EQ, EC.
  unfold after_iteration, makes_step, physics_paused.
  rewrite ES, EQ, EC.
  set (st := status_after (filesToLoad s2) (simulationStatus s2)).
  destruct (steps_in st && negb (negb (physics_mutex_count s2 =? 0)));
    [|exact (erase_setters s1 s2 [] st (sim_fault s1) (sim_fault s2) E)].
  destruct (Status_eqb st STEPPING).
  - destruct f1, f2;
      first
        [ exact (erase_setters s1 s2 [] STOPPED true true E)
        | exact (erase_setters s1 s2 [] STOPPED true (sim_fault s2) E)
        | exact (erase_setters s1 s2 [] STOPPED (sim_fault s1) true E)
        | exact (erase_setters s1 s2 [] STOPPED
                   (sim_fault s1) (sim_fault s2) E) ].
  - destruct f1, f2;
      first
        [ exact (erase_setters s1 s2 [] st true true E)
        | exact (erase_setters s1 s2 [] st true (sim_fault s2) E)
        | exact (erase_setters s1 s2 [] st (sim_fault s1) true E)
        | exact (erase_setters s1 s2 [] st (sim_fault s1) (sim_fault s2) E) ].
Qed.

Lemma erase_status (s1 s2 : Simulator) (st : Status) :
  set_sim_fault false s1 = set_sim_fault false s2 ->
  set_sim_fault false (set_simulationStatus st s1) =
  set_sim_fault false (set_simulationStatus st s2).
Proof.
  intros E.
  change (set_simulationStatus st (set_sim_fault false s1)
          = set_simulationStatus st (set_sim_fault false s2)).
  rewrite E. reflexivity.
Qed.

Lemma makes_step_same (w1 w2 : World) :
  same_but_fault w1 w2 -> makes_step (this w1) = makes_step (this w2).
Proof.
  intros H. destruct (same_but_fault_fields w1 w2 H) as (S & Q & U & _).
  unfold makes_step, status in *. rewrite S, Q, U. reflexivity.
Qed.

Lemma run_iteration_same (f1 f2 : option PhysicsError) (w1 w2 : World) :
  same_but_fault w1 w2 ->
  same_run (run_iteration f1 w1) (run_iteration f2 w2).
Proof.
  intros H. pose proof (makes_step_same w1 w2 H) as M.
  destruct (same_but_fault_fields w1 w2 H) as (S & Q & U & P & K).
  assert (PP : sim_thread_parked w1 = sim_thread_parked w2)
    by (unfold sim_thread_parked; rewrite P; reflexivity).
  destruct (sim_thread_parked w2) eqn:P2.
  { rewrite !run_iteration_asleep by assumption.
    split; [reflexivity | exact H]. }
  destruct (stepping_mutex_held (threads w2)) eqn:K2.
  { rewrite !run_iteration_blocked by assumption. exact I. }
  destruct H as [T E].
  destruct (Status_eqb (status w2) STOPPED || Status_eqb (status w2) STOPPING)
    eqn:D.
  - apply orb_true_iff in D. rewrite !Status_eqb_eq in D.
    rewrite (run_iteration_parks f1 w1), (run_iteration_parks f2 w2)
      by (try rewrite S; assumption).
    split; [reflexivity|]. split; simpl.
    + rewrite P, T. reflexivity.
    + apply erase_status, E.
  - apply orb_false_iff in D. destruct D as [D1 D2].
    assert (N1 : status w2 <> STOPPED)
      by (intros X; apply Status_eqb_eq in X; congruence).
    assert (N2 : status w2 <> STOPPING)
      by (intros X; apply Status_eqb_eq in X; congruence).
    rewrite (run_iteration_works f1 w1), (run_iteration_works f2 w2)
      by (try rewrite S; assumption).
    rewrite Q, M. split; [reflexivity|]. split; simpl.
    + exact T.
    + apply erase_after_iteration, E.
Qed.

Lemma run_iterations_same (fs1 fs2 : list (option PhysicsError))
    (w1 w2 : World) :
  List.length fs1 = List.length fs2 ->
  same_but_fault w1 w2 ->
  same_run (run_iterations fs1 w1) (run_iterations fs2 w2).
Proof.
  revert fs2 w1 w2.
  induction fs1 as [|f1 fs1 IH]; intros [|f2 fs2] w1 w2 L H;
    try discriminate L.
  - split; [reflexivity | exact H].
  - cbn [run_iterations]. unfold bind.
    pose proof (run_iteration_same f1 f2 w1 w2 H) as R.
    destruct (run_iteration f1 w1) as [[[[] v1] e1]|];
      destruct (run_iteration f2 w2) as [[[[] v2] e2]|];
      simpl in R; try contradiction; [|exact I].
    destruct R as [E R]. subst e2.
    injection L as L.
    pose proof (IH fs2 v1 v2 L R) as R'.
    destruct (run_iterations fs1 v1) as [[[[] u1] d1]|];
      destruct (run_iterations fs2 v2) as [[[[] u2] d2]|];
      simpl in R'; try contradiction; [|exact I].
    destruct R' as [E' R']. subst d2. split; [reflexivity | exact R'].
Qed.

(** C7.  [handleError] raises the fault flag, which [hasSimFault] reads, and
    changes nothing else: the status is the one before.  Once raised the flag
    stays raised through every call, load request, error report and
    iteration.  A fault reported in an iteration does not change the status
    the iteration ends in, nor the calls it makes, and the flag is up after
    it if a step was made.  The loop does not stop itself: whatever the
    engine reports, in whichever iterations, the loop makes the same steps
    and loads and ends in worlds that differ in the flag at most, hence in
    the same status.  In particular a running simulator whose physics is not
    paused and that has no request to execute goes on stepping: after the
    faulty step every further iteration makes its step, and the status is
    still RUNNING. *)
Theorem physics_fault_persists
    (error : PhysicsError) (w : World) :
  mutex_free w ->
  (exists w',
     handleError error w = Some (tt, w', []) /\
     hasSimFault w' = true /\ status w' = status w /\
     this w' = set_sim_fault true (this w) /\ threads w' = threads w) /\
  (forall os w' es,
     hasSimFault w = true ->
     perform_all os w = Some (tt, w', es) -> hasSimFault w' = true) /\
  (exists w1 w0 es,
     run_iteration (Some error) w = Some (tt, w1, es) /\
     run_iteration None w = Some (tt, w0, es) /\
     status w1 = status w0 /\
     (existsb is_PhysicsStep es = true -> hasSimFault w1 = true)) /\
  (forall reports quiet,
     List.length reports = List.length quiet ->
     same_run (run_iterations reports w) (run_iterations quiet w)) /\
  (status w = RUNNING -> sim_thread_parked w = false ->
   filesToLoad (this w) = [] -> physics_paused (this w) = false ->
   forall faults,
   exists w' es,
     run_iterations (Some error :: faults) w = Some (tt, w', es) /\
     steps_of es = S (List.length faults) /\
     status w' = RUNNING /\ hasSimFault w' = true).
Proof.
  intros F. repeat apply conj.
  - eexists. split; [reflexivity|]. repeat split.
  - intros os w' es H R. unfold hasSimFault in *.
    exact (keeps_fault_perform_all os w tt w' es R H).
  - destruct (run_iteration_total (Some error) w F) as (w1 & es & R & O & G).
    destruct (O None) as (w0 & R0 & E0).
    exists w1, w0, es. repeat split; auto.
    intros H. apply G; [exact H | discriminate].
  - intros reports quiet L.
    apply run_iterations_same; [exact L | apply same_but_fault_refl].
  - intros R P Q U faults.
    cbn [run_iterations]. unfold bind.
    destruct (run_iteration_running (Some error) w F R P Q U)
      as (w1 & R1 & F1 & S1 & P1 & Q1 & U1 & G1).
    destruct (run_iterations_running faults w1 F1 S1 P1 Q1 U1)
      as (w' & R' & S' & G).
    rewrite R1, R'. exists w'. eexists. split; [reflexivity|].
    split; [|split; [exact S' | exact (G G1)]].
    exact (steps_of_repeat (S (List.length faults))).
Qed.

(** ** Worlds the operations can reach *)

Lemma settled_awake (w : World) :
  settled w -> status w <> STOPPED -> parked w = [].
Proof.
  intros [_ H] N. destruct (parked w) eqn:E; [reflexivity|].
  exfalso. apply N, H. discriminate.
Qed.

Lemma perform_settled (o : Op) (w : World) :
  settled w ->
  exists w' es, perform o w = Some (tt, w', es) /\ settled w'.
Proof.
  intros I. pose proof (settled_awake w I) as A. destruct I as [F I].
  destruct o as [[| |]| | |fault]; simpl perform.
  - rewrite (StartSimulation_run w F).
    do 2 eexists; split; [reflexivity|]. split.
    + unfold mutex_free in *; simpl. destruct (threads w); exact F.
    + unfold parked; simpl. destruct (threads w); simpl; congruence.
  - rewrite (StopSimulation_run w F).
    do 2 eexists; split; [reflexivity|]. split; [exact F|].
    unfold parked, status in *; simpl.
    destruct (Status_neqb (simulationStatus (this w)) STOPPED) eqn:E;
      [|exact I].
    apply Status_neqb_neq in E. intros P. elim P. exact (A E).
  - rewrite (singleStep_run w F).
    destruct (status w) eqn:E; do 2 eexists; (split; [reflexivity|]);
      try (split; [exact F | intros P; elim P; apply A; congruence]);
      (split;
       [ unfold mutex_free in *; simpl; destruct (threads w); exact F
       | unfold parked; simpl; destruct (threads w); simpl; congruence ]).
  - do 2 eexists; split; [reflexivity|]. split; [exact F | exact I].
  - do 2 eexists; split; [reflexivity|]. split; [exact F | exact I].
  - destruct (sim_thread_parked w) eqn:P.
    { rewrite run_iteration_asleep by exact P.
      do 2 eexists; split; [reflexivity|]. split; assumption. }
    destruct (Status_eqb (status w) STOPPED || Status_eqb (status w) STOPPING)
      eqn:S.
    + apply orb_true_iff in S. rewrite !Status_eqb_eq in S.
      rewrite run_iteration_parks by assumption.
      do 2 eexists; split; [reflexivity|]. split.
      * unfold mutex_free in *; simpl. destruct (threads w); exact F.
      * reflexivity.
    + apply orb_false_iff in S. destruct S as [S1 S2].
      assert (N1 : status w <> STOPPED)
        by (intros E; apply Status_eqb_eq in E; congruence).
      assert (N2 : status w <> STOPPING)
        by (intros E; apply Status_eqb_eq in E; congruence).
      rewrite run_iteration_works by assumption.
      do 2 eexists; split; [reflexivity|]. split; [exact F|].
      intros Q. elim Q. exact (A N1).
Qed.

Lemma perform_all_settled (os : list Op) (w : World) :
  settled w ->
  exists w' es, perform_all os w = Some (tt, w', es) /\ settled w'.
Proof.
  revert w. induction os as [|o os IH]; intros w I.
  - exists w, []. split; [reflexivity | exact I].
  - destruct (perform_settled o w I) as (w1 & e1 & R1 & I1).
    destruct (IH w1 I1) as (w' & e' & R & I').
    cbn [perform_all]. unfold bind. rewrite R1, R.
    do 2 eexists; split; [reflexivity | exact I'].
Qed.

(** In such a world [StartSimulation] while RUNNING leaves everything as it
    is: the signal it sends finds nobody to wake. *)
Lemma StartSimulation_running_settled (w : World) :
  settled w -> status w = RUNNING ->
  StartSimulation w = Some (tt, w, [WakeAll []]).
Proof.
  intros I R.
  assert (P : parked w = []) by (apply settled_awake; congruence).
  destruct I as [F _]. rewrite (StartSimulation_run w F), P.
  unfold status, parked in *. rewrite <- R, set_simulationStatus_same.
  rewrite <- P, set_stepping_wc_waiters_same. destruct w; reflexivity.
Qed.

(** In such a world [StopSimulation] changes the status only while no
    thread is parked, so the signal it does not send is not missed. *)
Lemma StopSimulation_settled (w : World) :
  settled w ->
  exists w',
    StopSimulation w = Some (tt, w', []) /\
    (status w' <> status w -> parked w = []).
Proof.
  intros I. destruct (I) as [F _]. rewrite (StopSimulation_run w F).
  eexists; split; [reflexivity|]. unfold status at 1 2; simpl.
  intros N. apply settled_awake; [exact I|].
  intros S. apply N. unfold status in S |- *. rewrite S; simpl. exact S.
Qed.

(** ** Sequences of StartSimulation and StopSimulation calls *)

Lemma command_run (c : Command) (w : World) :
  mutex_free w ->
  command c w =
  Some (tt, after_command w c,
        match c with Start => [WakeAll (parked w)] | Stop => [] end).
Proof.
  intros F. destruct c; simpl.
  - apply StartSimulation_run; exact F.
  - apply StopSimulation_run; exact F.
Qed.

Lemma after_command_free (c : Command) (w : World) :
  mutex_free w -> mutex_free (after_command w c).
Proof.
  unfold mutex_free. destruct c; simpl; [destruct (threads w)|]; auto.
Qed.

Lemma after_command_parked (c : Command) (w : World) :
  parked (after_command w c) =
  match c with Start => [] | Stop => parked w end.
Proof.
  unfold parked. destruct c; simpl; [destruct (threads w)|]; reflexivity.
Qed.

Lemma signals_nobody (n : nat) : signals n [] = repeat (WakeAll []) n.
Proof. destruct n; reflexivity. Qed.

Lemma commands_run (cs : list Command) (w : World) :
  mutex_free w ->
  commands cs w =
  Some (tt, fold_left after_command cs w,
        signals (count_occ Bool.bool_dec (map is_Start cs) true) (parked w)).
Proof.
  revert w. induction cs as [|c cs IH]; intros w F.
  - reflexivity.
  - cbn [commands]. unfold bind.
    rewrite (command_run c w F), (IH _ (after_command_free c w F)).
    rewrite after_command_parked. destruct c; simpl.
    + rewrite signals_nobody. reflexivity.
    + reflexivity.
Qed.

(** The four worlds a sequence can leave. *)
Lemma started_started (w : World) : started (started w) = started w.
Proof. destruct w as [s y]; destruct y; reflexivity. Qed.

Lemma started_stopped (w : World) : started (stopped w) = started w.
Proof.
  destruct w as [s y]. unfold started, stopped, status; simpl.
  destruct (Status_neqb (simulationStatus s) STOPPED); reflexivity.
Qed.

Lemma stopped_stopped (w : World) : stopped (stopped w) = stopped w.
Proof.
  destruct w as [s y]. unfold stopped, status; simpl.
  destruct (simulationStatus s) eqn:E; simpl; rewrite ?E; reflexivity.
Qed.

Lemma shortest_snoc (cs : list Command) (c : Command) :
  shortest (cs ++ [c]) =
  match c with
  | Start => [Start]
  | Stop => if existsb is_Start cs then [Start; Stop] else [Stop]
  end.
Proof.
  unfold shortest.
  destruct (cs ++ [c]) eqn:E; [destruct cs; discriminate|].
  rewrite <- E, last_last, existsb_app. destruct c; simpl;
    rewrite ?orb_false_r; reflexivity.
Qed.

Lemma shortest_cases (cs : list Command) :
  (existsb is_Start cs = true /\
   (shortest cs = [Start] \/ shortest cs = [Start; Stop])) \/
  (existsb is_Start cs = false /\
   (shortest cs = [] \/ shortest cs = [Stop])).
Proof.
  induction cs as [|c cs _] using rev_ind.
  - right; split; [reflexivity | left; reflexivity].
  - rewrite shortest_snoc, existsb_app. destruct c; simpl.
    + left. rewrite orb_true_r. split; [reflexivity | left; reflexivity].
    + rewrite orb_false_r. destruct (existsb is_Start cs).
      * left; split; [reflexivity | right; reflexivity].
      * right; split; [reflexivity | right; reflexivity].
Qed.

Lemma fold_shortest (cs : list Command) (w : World) :
  fold_left after_command cs w = fold_left after_command (shortest cs) w.
Proof.
  induction cs as [|c cs IH] using rev_ind.
  - reflexivity.
  - rewrite fold_left_app, shortest_snoc, IH. cbn [fold_left].
    destruct (shortest_cases cs) as [[E [H|H]]|[E [H|H]]];
      rewrite H, E; destruct c; simpl;
      auto using started_started, started_stopped, stopped_stopped.
Qed.

(** X1.  A sequence of [StartSimulation] and [StopSimulation] calls leaves
    the world that its shortest form leaves: nothing for no call, one
    [StartSimulation] if the last call is one, else one [StopSimulation],
    after one [StartSimulation] if the sequence has any. *)
Theorem commands_shortest (cs : list Command) (w : World) :
  mutex_free w ->
  exists w',
    final (commands cs w) = Some w' /\
    final (commands (shortest cs) w) = Some w' /\
    mutex_free w'.
Proof.
  intros F. rewrite !commands_run by exact F. simpl.
  exists (fold_left after_command cs w).
  split; [reflexivity|]. split; [rewrite <- fold_shortest; reflexivity|].
  clear - F. revert w F. induction cs as [|c cs IH]; intros w F.
  - exact F.
  - simpl. apply IH, after_command_free, F.
Qed.

Lemma fold_status (cs : list Command) (w : World) :
  status (fold_left after_command cs w) =
  match shortest cs with
  | [] => status w
  | [Start] => RUNNING
  | [Stop] => if Status_neqb (status w) STOPPED then STOPPING else STOPPED
  | _ => STOPPING
  end.
Proof.
  rewrite fold_shortest.
  destruct (shortest_cases cs) as [[_ [H|H]]|[_ [H|H]]]; rewrite H;
    try reflexivity.
  simpl. unfold stopped, status; simpl.
  destruct (simulationStatus (this w)) eqn:E; simpl; rewrite ?E; reflexivity.
Qed.

(** X2.  Calls of the two methods never stop the simulator.  After a
    sequence whose last call is [StartSimulation] the status is RUNNING.
    After one whose last call is [StopSimulation] it is STOPPING, unless the
    status was STOPPED before and no call of the sequence is a
    [StartSimulation]: then it is still STOPPED.  STEPPING and UNKNOWN are
    never written. *)
Theorem commands_status (cs : list Command) (c : Command) (w : World) :
  mutex_free w ->
  exists w',
    final (commands (cs ++ [c]) w) = Some w' /\
    (c = Start -> status w' = RUNNING) /\
    (c = Stop ->
     if existsb is_Start cs || Status_neqb (status w) STOPPED
     then status w' = STOPPING
     else status w' = STOPPED) /\
    status w' <> STEPPING /\ status w' <> UNKNOWN.
Proof.
  intros F. rewrite commands_run by exact F. simpl.
  eexists; split; [reflexivity|]. rewrite fold_status, shortest_snoc.
  destruct c.
  - repeat split; intros; congruence.
  - destruct (existsb is_Start cs); simpl.
    + repeat split; intros; congruence.
    + destruct (Status_neqb (status w) STOPPED);
        repeat split; intros; congruence.
Qed.

(** X3.  In a sequence of calls each [StartSimulation] signals once and
    [StopSimulation] never: the first signal releases the threads that were
    parked and the later ones release nobody.  Without a [StartSimulation]
    the parked threads stay parked. *)
Theorem commands_signals (cs : list Command) (w : World) :
  mutex_free w ->
  exists w',
    commands cs w =
      Some (tt, w',
            signals (count_occ Bool.bool_dec (map is_Start cs) true)
              (parked w)) /\
    parked w' = if existsb is_Start cs then [] else parked w.
Proof.
  intros F. rewrite commands_run by exact F.
  eexists; split; [reflexivity|].
  clear F. revert w. induction cs as [|c cs IH]; intros w.
  - reflexivity.
  - cbn [fold_left]. rewrite IH, after_command_parked.
    destruct c; simpl; [destruct (existsb is_Start cs)|]; reflexivity.
Qed.

Lemma fold_others_unchanged (cs : list Command) (w : World) :
  this (fold_left after_command cs w) =
  set_simulationStatus (status (fold_left after_command cs w)) (this w).
Proof.
  revert w. induction cs as [|c cs IH]; intros w.
  - symmetry. apply set_simulationStatus_same.
  - cbn [fold_left]. rewrite IH. destruct c; simpl; [reflexivity|].
    unfold status at 2; simpl.
    destruct (Status_neqb (simulationStatus (this w)) STOPPED);
      reflexivity.
Qed.

(** X4.  No sequence of [StartSimulation] and [StopSimulation] calls
    changes a data member other than [simulationStatus], so [getAllowDraw],
    [getSyncGraphics] and [getConfigDir] return after it what they returned
    before; the mutexes and the read-write lock are as they were. *)
Theorem commands_frame (cs : list Command) (w : World) :
  mutex_free w ->
  exists w',
    final (commands cs w) = Some w' /\
    others_unchanged (this w) (this w') /\
    getAllowDraw w' = getAllowDraw w /\
    getSyncGraphics w' = getSyncGraphics w /\
    getConfigDir w' = getConfigDir w /\
    set_stepping_wc_waiters [] (threads w') =
      set_stepping_wc_waiters [] (threads w).
Proof.
  intros F. rewrite commands_run by exact F. simpl.
  eexists; split; [reflexivity|].
  unfold getAllowDraw, getSyncGraphics, getConfigDir.
  rewrite fold_others_unchanged.
  split; [apply others_unchanged_set|]. repeat split.
  clear F. revert w. induction cs as [|c cs IH]; intros w.
  - reflexivity.
  - cbn [fold_left]. rewrite IH. destruct c; simpl; [|reflexivity].
    destruct (threads w); reflexivity.
Qed.

(** ** Two calls at the same time *)

Lemma sequence_snoc (l : list (M unit)) (m : M unit)
    (w0 w w' : World) (acc e : list Effect) :
  sequence l w0 = Some (tt, w, acc) ->
  m w = Some (tt, w', e) ->
  sequence (l ++ [m]) w0 = Some (tt, w', acc ++ e).
Proof.
  revert w0 acc. induction l as [|a l IH]; intros w0 acc H Hm.
  - inversion H; subst. simpl. unfold bind, ret. rewrite Hm.
    rewrite app_nil_r. reflexivity.
  - simpl in *. unfold bind in *.
    destruct (a w0) as [[[[] w1] e1]|]; [|discriminate].
    destruct (sequence l w1) as [[[[] w2] e2]|] eqn:E; [|discriminate].
    inversion H; subst.
    rewrite (IH _ _ E Hm), app_assoc. reflexivity.
Qed.

Lemma sequence_app (l1 l2 : list (M unit)) (w : World) :
  sequence (l1 ++ l2) w = (sequence l1 ;; sequence l2) w.
Proof.
  revert w. induction l1 as [|a l1 IH]; intros w.
  - simpl. unfold bind, ret.
    destruct (sequence l2 w) as [[[[] w2] e2]|]; reflexivity.
  - simpl. unfold bind in *.
    destruct (a w) as [[[[] w1] e1]|]; [|reflexivity].
    rewrite IH.
    destruct (sequence l1 w1) as [[[[] w2] e2]|]; [|reflexivity].
    destruct (sequence l2 w2) as [[[[] w3] e3]|]; [|reflexivity].
    rewrite app_assoc. reflexivity.
Qed.

(** The statements of a call, executed in order, are the call. *)
Lemma sequence_statements (c : Command) (w : World) :
  sequence (statements c) w = command c w.
Proof.
  destruct (stepping_mutex_held (threads w)) eqn:H.
  - destruct c; simpl; unfold bind; rewrite lock_blocks by exact H;
      [rewrite StartSimulation_blocked | rewrite StopSimulation_blocked];
      auto.
  - destruct c; simpl.
    + rewrite StartSimulation_run by exact H. open_world w. reflexivity.
    + rewrite StopSimulation_run by exact H. open_world w.
      unfold bind, lock_stepping_mutex, get_this; simpl.
      destruct (Status_neqb (simulationStatus s) STOPPED); reflexivity.
Qed.

Lemma lock_free (w : World) :
  mutex_free w ->
  exists w',
    lock_stepping_mutex w = Some (tt, w', []) /\
    stepping_mutex_held (threads w') = true.
Proof.
  unfold mutex_free, lock_stepping_mutex. intros ->.
  eexists; split; [reflexivity|]. simpl. destruct (threads w); reflexivity.
Qed.

Lemma unlock_frees (w : World) :
  exists w',
    unlock_stepping_mutex w = Some (tt, w', []) /\ mutex_free w'.
Proof.
  eexists; split; [reflexivity|].
  unfold mutex_free; simpl. destruct (threads w); reflexivity.
Qed.

Lemma inert_StartSimulation_body : Forall inert StartSimulation_body.
Proof.
  repeat constructor; intros w; do 2 eexists; (split; [reflexivity|]);
    simpl; destruct (threads w); reflexivity.
Qed.

Lemma inert_StopSimulation_body : Forall inert StopSimulation_body.
Proof.
  repeat constructor; intros w. unfold bind, get_this.
  destruct (Status_neqb (simulationStatus (this w)) STOPPED);
    do 2 eexists; (split; [reflexivity|]); reflexivity.
Qed.

Lemma swap_swap (r : Race) : swap (swap r) = r.
Proof. destruct r; reflexivity. Qed.

Lemma turn_swap (r : Race) (b : bool) :
  turn (swap r) b = swap (turn r (negb b)).
Proof.
  destruct r as [w acc pa pb]. destruct b; simpl.
  - destruct pb as [|m pb]; [reflexivity|].
    destruct (m w) as [[[[] w'] e]|]; reflexivity.
  - destruct pa as [|m pa]; [reflexivity|].
    destruct (m w) as [[[[] w'] e]|]; reflexivity.
Qed.

Section Guarded.
Variables ba bb : list (M unit).
Variable w0 : World.
Hypothesis inert_a : Forall inert ba.
Hypothesis inert_b : Forall inert bb.

(** A thread inside its guarded body executes its next statement. *)
Lemma inside_step (before done rest : list (M unit)) (body : list (M unit))
    (w : World) (acc : list Effect) :
  Forall inert body -> body = done ++ rest ->
  sequence (before ++ lock_stepping_mutex :: done) w0 = Some (tt, w, acc) ->
  stepping_mutex_held (threads w) = true ->
  match rest ++ [unlock_stepping_mutex] with
  | [] => False
  | m :: todo =>
      exists w' e,
        m w = Some (tt, w', e) /\
        ((exists rest',
            rest = m :: rest' /\
            todo = rest' ++ [unlock_stepping_mutex] /\
            sequence (before ++ lock_stepping_mutex :: done ++ [m]) w0 =
              Some (tt, w', acc ++ e) /\
            stepping_mutex_held (threads w') = true) \/
         (rest = [] /\ todo = [] /\
            sequence (before ++ guarded body) w0 = Some (tt, w', acc ++ e) /\
            mutex_free w'))
  end.
Proof.
  intros I B H K. destruct rest as [|m rest']; simpl.
  - destruct (unlock_frees w) as (w' & U & F).
    exists w', []. split; [exact U|]. right.
    repeat split; try assumption.
    rewrite app_nil_r in B. subst body. unfold guarded.
    replace (before ++ lock_stepping_mutex :: done ++ [unlock_stepping_mutex])
      with ((before ++ lock_stepping_mutex :: done) ++ [unlock_stepping_mutex])
      by (rewrite <- app_assoc; reflexivity).
    eapply sequence_snoc; eassumption.
  - assert (Im : inert m).
    { rewrite Forall_forall in I. apply I. subst body.
      apply in_or_app. right. left. reflexivity. }
    destruct (Im w) as (w' & e & Hm & Hk).
    exists w', e. split; [exact Hm|]. left.
    exists rest'. repeat split; [|congruence].
    replace (before ++ lock_stepping_mutex :: done ++ [m])
      with ((before ++ lock_stepping_mutex :: done) ++ [m])
      by (rewrite <- app_assoc; reflexivity).
    eapply sequence_snoc; eassumption.
Qed.

Lemma ahead_turn (r : Race) (b : bool) :
  ahead ba bb w0 r -> fair_race ba bb w0 (turn r b).
Proof.
  destruct r as [w acc pa pb]. unfold ahead, fair_race; simpl.
  intros [(Pa & Pb & W & A & F)
         |[(done & rest & B & Pa & Pb & H & K)
         |[(Pa & Pb & H & F)
         |[(done & rest & B & Pa & Pb & H & K)
         |(Pa & Pb & H & F)]]]]; subst.
  - (* nobody has begun: whoever is scheduled takes the mutex *)
    destruct (lock_free w0 F) as (w1 & L & K).
    destruct b; simpl; rewrite L; simpl.
    + left. right. left. exists [], ba. simpl.
      repeat split; try assumption.
      unfold bind, ret. rewrite L. reflexivity.
    + right. unfold ahead; simpl. right. left. exists [], bb. simpl.
      repeat split; try assumption.
      unfold bind, ret. rewrite L. reflexivity.
  - (* the first thread holds the mutex *)
    destruct b; simpl.
    + pose proof (inside_step [] done rest (done ++ rest) w acc
                    inert_a eq_refl H K) as S.
      destruct (rest ++ [unlock_stepping_mutex]) as [|m todo];
        [contradiction|].
      destruct S
        as (w' & e & Hm & [(rest' & R & L & H' & K')|(R & L & H' & F')]);
        rewrite Hm; subst; simpl.
      * left. right. left. exists (done ++ [m]), rest'. simpl.
        rewrite <- app_assoc. repeat split; assumption.
      * left. right. right. left. simpl. rewrite app_nil_r in *.
        repeat split; assumption.
    + rewrite lock_blocks by exact K.
      left. right. left. exists done, rest. repeat split; assumption.
  - (* the first thread has finished, the second has not begun *)
    destruct b; simpl.
    + left. right. right. left. repeat split; assumption.
    + destruct (lock_free w F) as (w1 & L & K). rewrite L; simpl.
      left. right. right. right. left. exists [], bb.
      repeat split; try assumption.
      exact (sequence_snoc (guarded ba) _ _ _ _ _ _ H L).
  - (* the first thread has finished, the second holds the mutex *)
    destruct b; simpl.
    + left. right. right. right. left. exists done, rest.
      repeat split; assumption.
    + pose proof (inside_step (guarded ba) done rest (done ++ rest) w acc
                    inert_b eq_refl H K) as S.
      destruct (rest ++ [unlock_stepping_mutex]) as [|m todo];
        [contradiction|].
      destruct S
        as (w' & e & Hm & [(rest' & R & L & H' & K')|(R & L & H' & F')]);
        rewrite Hm; subst; simpl.
      * left. right. right. right. left. exists (done ++ [m]), rest'. simpl.
        rewrite <- app_assoc. repeat split; assumption.
      * left. right. right. right. right. simpl. rewrite app_nil_r in *.
        repeat split; assumption.
  - (* both have finished *)
    destruct b; simpl; left; right; right; right; right;
      repeat split; assumption.
Qed.

End Guarded.

Lemma fair_turn (ba bb : list (M unit)) (w0 : World) (r : Race) (b : bool) :
  Forall inert ba -> Forall inert bb ->
  fair_race ba bb w0 r -> fair_race ba bb w0 (turn r b).
Proof.
  intros Ia Ib [H|H].
  - apply ahead_turn; assumption.
  - pose proof (ahead_turn bb ba w0 Ib Ia (swap r) (negb b) H) as T.
    rewrite turn_swap, negb_involutive in T.
    destruct T as [T|T]; [right; exact T|].
    rewrite swap_swap in T. left; exact T.
Qed.

Lemma fair_interleave (ba bb : list (M unit)) (w0 : World)
    (sched : list bool) (r : Race) :
  Forall inert ba -> Forall inert bb ->
  fair_race ba bb w0 r -> fair_race ba bb w0 (interleave sched r).
Proof.
  intros Ia Ib. revert r. unfold interleave.
  induction sched as [|b sched IH]; intros r H; simpl.
  - exact H.
  - apply IH, fair_turn; assumption.
Qed.

Lemma inert_body_of (c : Command) : Forall inert (body_of c).
Proof.
  destruct c; [apply inert_StartSimulation_body
              | apply inert_StopSimulation_body].
Qed.

Lemma race_fair (c1 c2 : Command) (sched : list bool) (w : World) :
  mutex_free w ->
  fair_race (body_of c1) (body_of c2) w (interleave sched (race c1 c2 w)).
Proof.
  intros F. apply fair_interleave; try apply inert_body_of.
  left. left. destruct c1, c2; repeat split; assumption.
Qed.

Lemma guarded_not_nil (body : list (M unit)) : guarded body <> [].
Proof. discriminate. Qed.

Lemma snoc_not_nil {A} (l : list A) (a : A) : l ++ [a] <> [].
Proof. destruct l; discriminate. Qed.

Lemma ahead_finished (c1 c2 : Command) (w : World) (r : Race) :
  ahead (body_of c1) (body_of c2) w r -> finished r ->
  (command c1 ;; command c2) w = Some (tt, race_world r, race_effects r).
Proof.
  unfold finished.
  intros [(Pa & Pb & _)
         |[(done & rest & _ & Pa & Pb & _)
         |[(Pa & Pb & _)
         |[(done & rest & _ & Pa & Pb & _)
         |(Pa & Pb & H & F)]]]] [Qa Qb];
    try (rewrite Qb in Pb; symmetry in Pb;
         first [ apply guarded_not_nil in Pb | apply snoc_not_nil in Pb ];
         contradiction).
  rewrite sequence_app in H. unfold bind in *.
  change (guarded (body_of c1)) with (statements c1) in H.
  change (guarded (body_of c2)) with (statements c2) in H.
  rewrite sequence_statements in H.
  destruct (command c1 w) as [[[[] w1] e1]|]; [|discriminate].
  rewrite sequence_statements in H. exact H.
Qed.

(** X5.  Two calls of [StartSimulation] or [StopSimulation] made at the
    same time are serialised by [stepping_mutex]: however the scheduler
    interleaves their statements, once both have returned the world and the
    signals sent are those of one call made after the other. *)
Theorem concurrent_calls_serialise
    (c1 c2 : Command) (sched : list bool) (w : World) :
  mutex_free w ->
  finished (interleave sched (race c1 c2 w)) ->
  (command c1 ;; command c2) w =
    Some (tt, race_world (interleave sched (race c1 c2 w)),
          race_effects (interleave sched (race c1 c2 w))) \/
  (command c2 ;; command c1) w =
    Some (tt, race_world (interleave sched (race c1 c2 w)),
          race_effects (interleave sched (race c1 c2 w))).
Proof.
  intros F D.
  destruct (race_fair c1 c2 sched w F) as [H|H].
  - left. apply ahead_finished; assumption.
  - right.
    apply (ahead_finished c2 c1 w (swap (interleave sched (race c1 c2 w))));
      [exact H|].
    destruct D as [Da Db]. split; simpl; assumption.
Qed.

Lemma inside_not_boundary (body done rest : list (M unit)) :
  body = done ++ rest ->
  rest ++ [unlock_stepping_mutex] <> guarded body /\
  rest ++ [unlock_stepping_mutex] <> [].
Proof.
  intros B. split; [|apply snoc_not_nil].
  intros E. apply (f_equal (@List.length (M unit))) in E.
  unfold guarded in E. subst body. simpl in E.
  rewrite !length_app in E. simpl in E. lia.
Qed.

Lemma ahead_exclusive (ba bb : list (M unit)) (w0 : World) (r : Race) :
  ahead ba bb w0 r -> exclusive ba bb r.
Proof.
  unfold exclusive, mutex_free.
  intros [(Pa & Pb & W & _ & F)
         |[(done & rest & B & Pa & Pb & _ & K)
         |[(Pa & Pb & _ & F)
         |[(done & rest & B & Pa & Pb & _ & K)
         |(Pa & Pb & _ & F)]]]].
  - subst. rewrite Pa, Pb. tauto.
  - destruct (inside_not_boundary ba done rest B) as [N1 N2].
    rewrite Pa, Pb, K. split; [tauto|].
    split; [discriminate|]. intros [[E|E] _]; contradiction.
  - rewrite Pa, Pb. tauto.
  - destruct (inside_not_boundary bb done rest B) as [N1 N2].
    rewrite Pa, Pb, K. split; [tauto|].
    split; [discriminate|]. intros [_ [E|E]]; contradiction.
  - rewrite Pa, Pb. tauto.
Qed.

(** X6.  The bodies of two calls never overlap: at every moment of every
    interleaving one of the two threads is before its [lock] or after its
    [unlock], and the mutex is free exactly when both are. *)
Theorem concurrent_calls_exclude
    (c1 c2 : Command) (sched : list bool) (w : World) :
  mutex_free w ->
  exclusive (body_of c1) (body_of c2) (interleave sched (race c1 c2 w)).
Proof.
  intros F.
  destruct (race_fair c1 c2 sched w F) as [H|H].
  - apply ahead_exclusive with (w0 := w). exact H.
  - apply ahead_exclusive in H. unfold exclusive in *. simpl in H. tauto.
Qed.

Lemma remaining_swap (r : Race) : remaining (swap r) = remaining r.
Proof. unfold remaining; simpl. lia. Qed.

Lemma ahead_progress (ba bb : list (M unit)) (w0 : World) (r : Race) :
  Forall inert ba -> Forall inert bb ->
  ahead ba bb w0 r ->
  finished r \/ exists b, (remaining (turn r b) < remaining r)%nat.
Proof.
  intros Ia Ib. destruct r as [w acc pa pb]. unfold ahead, finished; simpl.
  intros [(Pa & Pb & W & A & F)
         |[(done & rest & B & Pa & Pb & H & K)
         |[(Pa & Pb & H & F)
         |[(done & rest & B & Pa & Pb & H & K)
         |(Pa & Pb & H & F)]]]]; subst.
  - right. exists true. destruct (lock_free w0 F) as (w1 & L & _).
    unfold turn, remaining; simpl. rewrite L; simpl. lia.
  - right. exists true.
    pose proof (inside_step w0 [] done rest (done ++ rest) w acc
                  Ia eq_refl H K) as S.
    unfold turn, remaining; simpl.
    destruct (rest ++ [unlock_stepping_mutex]) as [|m todo];
      [contradiction|].
    destruct S as (w' & e & Hm & _). rewrite Hm; simpl. lia.
  - right. exists false. destruct (lock_free w F) as (w1 & L & _).
    unfold turn, remaining; simpl. rewrite L; simpl. lia.
  - right. exists false.
    pose proof (inside_step w0 (guarded ba) done rest (done ++ rest) w acc
                  Ib eq_refl H K) as S.
    unfold turn, remaining; simpl.
    destruct (rest ++ [unlock_stepping_mutex]) as [|m todo];
      [contradiction|].
    destruct S as (w' & e & Hm & _). rewrite Hm; simpl. lia.
  - left. split; reflexivity.
Qed.

Lemma fair_progress (ba bb : list (M unit)) (w0 : World) (r : Race) :
  Forall inert ba -> Forall inert bb ->
  fair_race ba bb w0 r ->
  finished r \/ exists b, (remaining (turn r b) < remaining r)%nat.
Proof.
  intros Ia Ib [H|H].
  - exact (ahead_progress ba bb w0 r Ia Ib H).
  - destruct (ahead_progress bb ba w0 (swap r) Ib Ia H) as [[Da Db]|[b L]].
    + left. split; assumption.
    + right. exists (negb b).
      rewrite turn_swap, !remaining_swap in L. exact L.
Qed.

Lemma fair_completes (ba bb : list (M unit)) (w0 : World) (n : nat) :
  Forall inert ba -> Forall inert bb ->
  forall r, fair_race ba bb w0 r -> (remaining r <= n)%nat ->
  exists more, (List.length more <= n)%nat /\ finished (interleave more r).
Proof.
  intros Ia Ib. induction n as [|n IH]; intros r H L.
  - exists []. split; [simpl; lia|].
    unfold remaining in L. split; simpl;
      [destruct (first_left r) | destruct (second_left r)];
      try reflexivity; simpl in L; lia.
  - destruct (fair_progress ba bb w0 r Ia Ib H) as [D|[b P]].
    + exists []. split; [simpl; lia | exact D].
    + destruct (IH (turn r b)) as (more & Lm & D).
      * apply fair_turn; assumption.
      * lia.
      * exists (b :: more). split; [simpl; lia | exact D].
Qed.

(** X7.  Two calls made at the same time never deadlock: whatever the
    scheduler has done so far, it can let both calls return, in no more
    turns than the statements they have left. *)
Theorem concurrent_calls_complete
    (c1 c2 : Command) (sched : list bool) (w : World) :
  mutex_free w ->
  exists more,
    (List.length more <= remaining (interleave sched (race c1 c2 w)))%nat /\
    finished (interleave (sched ++ more) (race c1 c2 w)).
Proof.
  intros F.
  destruct (fair_completes (body_of c1) (body_of c2) w
              (remaining (interleave sched (race c1 c2 w)))
              (inert_body_of c1) (inert_body_of c2)
              (interleave sched (race c1 c2 w))
              (race_fair c1 c2 sched w F) (Nat.le_refl _))
    as (more & L & D).
  exists more. split; [exact L|].
  unfold interleave in *. rewrite fold_left_app. exact D.
Qed.

(** The data members while a thread is inside its body: those before the
    call or those after it. *)
Lemma inside_data (c : Command) (done rest : list (M unit))
    (w1 w : World) (acc : list Effect) :
  body_of c = done ++ rest ->
  sequence (lock_stepping_mutex :: done) w1 = Some (tt, w, acc) ->
  this w = this w1 \/ this w = this (after_command w1 c).
Proof.
  intros B H. simpl in H. unfold bind, lock_stepping_mutex in H.
  destruct (stepping_mutex_held (threads w1)); [discriminate|].
  destruct done as [|d1 done];
    [simpl in H; inversion H; subst; left; reflexivity|].
  destruct c; simpl in B; injection B as <- B.
  - destruct done as [|d2 done];
      [simpl in H; inversion H; subst; right; reflexivity|].
    simpl in B. injection B as <- B.
    destruct done as [|d3 done]; [|discriminate B].
    simpl in H; inversion H; subst; right; reflexivity.
  - destruct done as [|d2 done]; [|discriminate B].
    simpl in H. unfold bind, get_this in H. simpl in H.
    destruct (Status_neqb (simulationStatus (this w1)) STOPPED) eqn:E;
      simpl in H; inversion H; subst; right; simpl; unfold status;
      rewrite E; reflexivity.
Qed.

Lemma ahead_data (c1 c2 : Command) (w : World) (r : Race) :
  mutex_free w ->
  ahead (body_of c1) (body_of c2) w r ->
  this (race_world r) = this w \/
  this (race_world r) = this (after_command w c1) \/
  this (race_world r) =
    this (after_command (after_command w c1) c2).
Proof.
  intros F0
    [(Pa & Pb & W & _ & F)
    |[(done & rest & B & Pa & Pb & H & K)
    |[(Pa & Pb & H & F)
    |[(done & rest & B & Pa & Pb & H & K)
    |(Pa & Pb & H & F)]]]].
  - left. rewrite W. reflexivity.
  - destruct (inside_data c1 done rest w _ _ B H); auto.
  - change (guarded (body_of c1)) with (statements c1) in H.
    rewrite sequence_statements, (command_run c1 w F0) in H.
    inversion H; subst. auto.
  - rewrite sequence_app in H. unfold bind in H.
    change (guarded (body_of c1)) with (statements c1) in H.
    rewrite sequence_statements, (command_run c1 w F0) in H.
    destruct (sequence (lock_stepping_mutex :: done) (after_command w c1))
      as [[[[] w2] e2]|] eqn:E; [|discriminate].
    inversion H; subst.
    destruct (inside_data c2 done rest _ _ _ B E) as [D|D];
      rewrite D; auto.
  - rewrite sequence_app in H. unfold bind in H.
    change (guarded (body_of c1)) with (statements c1) in H.
    change (guarded (body_of c2)) with (statements c2) in H.
    rewrite sequence_statements, (command_run c1 w F0) in H.
    rewrite sequence_statements,
      (command_run c2 _ (after_command_free c1 w F0)) in H.
    inversion H; subst. auto.
Qed.

(** X8.  Each of the two methods writes one data member, once.  So at
    every moment of two calls made at the same time, also while a thread is
    inside its body, the data members, the status among them, are those that
    no call, one of the calls, or the two calls one after the other leave:
    readers that take no mutex, like [getAllowDraw], see nothing in
    between. *)
Theorem concurrent_calls_data
    (c1 c2 : Command) (sched : list bool) (w : World) :
  mutex_free w ->
  exists l w',
    In l [[]; [c1]; [c2]; [c1; c2]; [c2; c1]] /\
    final (commands l w) = Some w' /\
    this (race_world (interleave sched (race c1 c2 w))) = this w'.
Proof.
  intros F.
  assert (R : forall l, final (commands l w) =
                        Some (fold_left after_command l w)).
  { intros l. rewrite commands_run by exact F. reflexivity. }
  destruct (race_fair c1 c2 sched w F) as [H|H];
    apply ahead_data in H; try exact F; simpl in H;
    destruct H as [H|[H|H]].
  - exists [], w. simpl; auto.
  - exists [c1]. eexists. rewrite R. simpl; auto 10.
  - exists [c1; c2]. eexists. rewrite R. simpl; auto 10.
  - exists [], w. simpl; auto.
  - exists [c2]. eexists. rewrite R. simpl; auto 10.
  - exists [c2; c1]. eexists. rewrite R. simpl; auto 10.
Qed.

End Properties.

(** * The properties at concrete worlds *)

Import Sample.

(** C2 on the initial simulator with its thread parked. *)
Lemma StartSimulation_from_stopped_asleep :
  mutex_free asleep /\ status asleep = STOPPED /\
  exists w',
    StartSimulation asleep = Some (tt, w', [WakeAll [sim_thread]]) /\
    status w' = RUNNING /\ parked w' = [].
Proof.
  split; [reflexivity|]. split; [reflexivity|].
  apply (StartSimulation_from_stopped asleep); reflexivity.
Defined.

(** C8 on a simulator with a stop pending. *)
Lemma StartSimulation_unconditional_stopping :
  mutex_free (idle_in STOPPING) /\
  (exists w' es,
      StartSimulation (idle_in STOPPING) = Some (tt, w', es) /\
      status w' = RUNNING) /\
  (exists w1 e1 w2 e2,
      StopSimulation (idle_in STOPPING) = Some (tt, w1, e1) /\
      (STOPPING <> STOPPED -> status w1 = STOPPING) /\
      StartSimulation w1 = Some (tt, w2, e2) /\
      status w2 = RUNNING).
Proof.
  split; [reflexivity|].
  apply (StartSimulation_unconditional STOPPING (idle_in STOPPING));
    reflexivity.
Defined.

(** C9 on a running simulator. *)
Lemma StopSimulation_writes_stopping_running :
  mutex_free (idle_in RUNNING) /\
  exists w',
    StopSimulation (idle_in RUNNING) = Some (tt, w', []) /\
    (status (idle_in RUNNING) <> STOPPED -> status w' = STOPPING) /\
    (status (idle_in RUNNING) = STOPPED -> status w' = STOPPED) /\
    (status w' = STOPPING \/
     (status w' = STOPPED /\ status (idle_in RUNNING) = STOPPED)).
Proof.
  split; [reflexivity|].
  apply (StopSimulation_writes_stopping (idle_in RUNNING)); reflexivity.
Defined.

(** C10 on a running simulator with a parked thread. *)
Lemma StartSimulation_StopSimulation_frame_asleep :
  mutex_free (asleep_in RUNNING) /\
  exists w1 e1 w2 e2,
    StartSimulation (asleep_in RUNNING) = Some (tt, w1, e1) /\
    StopSimulation (asleep_in RUNNING) = Some (tt, w2, e2) /\
    others_unchanged (this (asleep_in RUNNING)) (this w1) /\
    others_unchanged (this (asleep_in RUNNING)) (this w2) /\
    this w1 = set_simulationStatus RUNNING (this (asleep_in RUNNING)) /\
    this w2 = set_simulationStatus (status w2) (this (asleep_in RUNNING)) /\
    threads w1 = set_stepping_wc_waiters [] (threads (asleep_in RUNNING)) /\
    threads w2 = threads (asleep_in RUNNING).
Proof.
  split; [reflexivity|].
  apply (StartSimulation_StopSimulation_frame (asleep_in RUNNING));
    reflexivity.
Defined.

(** C3 on a running simulator. *)
Lemma StartSimulation_StopSimulation_idempotent_running :
  mutex_free (idle_in RUNNING) /\
  (exists w',
     StartSimulation (idle_in RUNNING) = Some (tt, w', [WakeAll []]) /\
     this w' = this (idle_in RUNNING) /\ status w' = RUNNING /\
     threads w' = set_stepping_wc_waiters [] (threads (idle_in RUNNING)) /\
     (parked (idle_in RUNNING) = [] -> w' = idle_in RUNNING)) /\
  (exists w1,
     final (StartSimulation (idle_in RUNNING)) = Some w1 /\
     final ((StartSimulation ;; StartSimulation) (idle_in RUNNING)) =
       Some w1) /\
  (exists w2,
     final (StopSimulation (idle_in RUNNING)) = Some w2 /\
     final ((StopSimulation ;; StopSimulation) (idle_in RUNNING)) = Some w2).
Proof.
  split; [reflexivity|].
  destruct (StartSimulation_StopSimulation_idempotent (idle_in RUNNING) eq_refl)
    as (A & _ & C & D).
  split; [exact (A eq_refl)|]. split; [exact C | exact D].
Defined.

(** C5 on the initial simulator with its thread parked. *)
Lemma wakes_of_the_transition_methods_asleep :
  mutex_free asleep /\
  (exists w',
     StartSimulation asleep = Some (tt, w', [WakeAll [sim_thread]]) /\
     parked w' = []) /\
  (exists w' es,
     singleStep asleep = Some (tt, w', es) /\
     (status w' <> status asleep ->
      es = [WakeAll [sim_thread]] /\ parked w' = [])) /\
  (exists w',
     StopSimulation asleep = Some (tt, w', []) /\
     parked w' = parked asleep /\
     (status asleep <> STOPPED ->
      status w' <> status asleep \/ status asleep = STOPPING)).
Proof.
  split; [reflexivity|].
  apply (wakes_of_the_transition_methods asleep); reflexivity.
Defined.

(** C1 on a sequence that starts, stops, starts again and asks for a
    step. *)
Lemma calls_follow_code_start_stop_start :
  mutex_free idle /\
  exists l,
    transitions [CallStart; CallStop; CallStart; CallSingleStep] idle =
      Some l /\
    forallb follows_code l = true /\
    existsb stopped_to_stopping l = false.
Proof.
  split; [reflexivity|].
  apply (calls_follow_code
           [CallStart; CallStop; CallStart; CallSingleStep] idle);
    reflexivity.
Defined.



(** C7 on a running simulator whose engine fails in the first of three
    iterations. *)
Lemma physics_fault_persists_running :
  mutex_free (idle_in RUNNING) /\ status (idle_in RUNNING) = RUNNING /\
  sim_thread_parked (idle_in RUNNING) = false /\
  filesToLoad (this (idle_in RUNNING)) = [] /\
  physics_paused (this (idle_in RUNNING)) = false /\
  (exists w',
     handleError solver_divergence (idle_in RUNNING) = Some (tt, w', []) /\
     hasSimFault w' = true /\ status w' = RUNNING) /\
  same_run
    (run_iterations [Some solver_divergence; None] (idle_in RUNNING))
    (run_iterations [None; None] (idle_in RUNNING)) /\
  (exists w' es,
     run_iterations [Some solver_divergence; None; None] (idle_in RUNNING) =
       Some (tt, w', es) /\
     steps_of es = 3%nat /\ status w' = RUNNING /\ hasSimFault w' = true).
Proof.
  split; [reflexivity|]. split; [reflexivity|]. split; [reflexivity|].
  split; [reflexivity|]. split; [reflexivity|].
  destruct (physics_fault_persists solver_divergence (idle_in RUNNING) eq_refl)
    as (A & _ & _ & C & D).
  split; [|split].
  - destruct A as (w' & H & G & S & _). exists w'. repeat split; assumption.
  - apply C. reflexivity.
  - exact (D eq_refl eq_refl eq_refl eq_refl [None; None]).
Defined.

(** ** Where the code leaves the design document *)

(** C1 as the design document states it fails: [StartSimulation] after a
    [StopSimulation] that is still pending takes the status from STOPPING to
    RUNNING, which section 4.1 does not list. *)
Lemma start_after_stop_leaves_the_state_machine :
  transitions [CallStart; CallStop; CallStart] idle =
    Some [(STOPPED, CallStart, RUNNING); (RUNNING, CallStop, STOPPING);
          (STOPPING, CallStart, RUNNING)] /\
  spec_edge STOPPING RUNNING = false /\
  ~ calls_follow_spec [CallStart; CallStop; CallStart] idle.
Proof.
  split; [reflexivity|]. split; [reflexivity|].
  intros (l & T & A). vm_compute in T. inversion T; subst.
  vm_compute in A. discriminate A.
Qed.

(** C5 as the design document states it fails: [StopSimulation] on the
    running simulator that [StartSimulation] leaves changes the status and
    signals nothing; were a thread parked, it would stay parked. *)
Lemma stop_changes_status_without_signal :
  final (StartSimulation idle) = Some (idle_in RUNNING) /\
  call CallStop (idle_in RUNNING) = Some (tt, idle_in STOPPING, []) /\
  call CallStop (asleep_in RUNNING) = Some (tt, asleep_in STOPPING, []) /\
  ~ status_change_signals CallStop (idle_in RUNNING).
Proof.
  split; [reflexivity|]. split; [reflexivity|]. split; [reflexivity|].
  intros H. specialize (H (idle_in STOPPING) [] eq_refl).
  assert (N : status (idle_in STOPPING) <> status (idle_in RUNNING))
    by (vm_compute; discriminate).
  specialize (H N). discriminate H.
Qed.

(** ** Sequences and races at concrete worlds *)

(** X1 on five calls that end with a stop. *)
Lemma commands_shortest_five_calls :
  mutex_free asleep /\
  shortest [Stop; Start; Start; Stop; Stop] = [Start; Stop] /\
  exists w',
    final (commands [Stop; Start; Start; Stop; Stop] asleep) = Some w' /\
    final (commands [Start; Stop] asleep) = Some w' /\
    mutex_free w'.
Proof.
  split; [reflexivity|]. split; [reflexivity|].
  apply (commands_shortest [Stop; Start; Start; Stop; Stop] asleep);
    reflexivity.
Defined.

(** X2 on stops only, from STOPPED, and on a start followed by a stop. *)
Lemma commands_status_stops :
  mutex_free idle /\
  (exists w',
     final (commands ([Stop; Stop] ++ [Stop]) idle) = Some w' /\
     status w' = STOPPED) /\
  (exists w',
     final (commands ([Start] ++ [Stop]) idle) = Some w' /\
     status w' = STOPPING).
Proof.
  split; [reflexivity|]. split.
  - destruct (commands_status [Stop; Stop] Stop idle eq_refl)
      as (w' & H & _ & S & _).
    exists w'. split; [exact H | exact (S eq_refl)].
  - destruct (commands_status [Start] Stop idle eq_refl)
      as (w' & H & _ & S & _).
    exists w'. split; [exact H | exact (S eq_refl)].
Defined.

(** X3 on three starts and a stop with the simulation thread parked. *)
Lemma commands_signals_three_starts :
  mutex_free asleep /\
  exists w',
    commands [Start; Stop; Start; Start] asleep =
      Some (tt, w', [WakeAll [sim_thread]; WakeAll []; WakeAll []]) /\
    parked w' = [].
Proof.
  split; [reflexivity|].
  apply (commands_signals [Start; Stop; Start; Start] asleep); reflexivity.
Defined.

(** X4 on a start and a stop of a simulator with a queued request. *)
Lemma commands_frame_queued :
  mutex_free queued /\
  exists w',
    final (commands [Stop; Start; Stop] queued) = Some w' /\
    others_unchanged (this queued) (this w') /\
    getAllowDraw w' = true /\
    getSyncGraphics w' = false /\
    getConfigDir w' = "."%string /\
    set_stepping_wc_waiters [] (threads w') =
      set_stepping_wc_waiters [] (threads queued).
Proof.
  split; [reflexivity|].
  apply (commands_frame [Stop; Start; Stop] queued); reflexivity.
Defined.

(** X5 on a start and a stop made at the same time. *)
Lemma concurrent_calls_serialise_contended :
  mutex_free asleep /\
  finished (interleave contended (race Start Stop asleep)) /\
  ((command Start ;; command Stop) asleep =
     Some (tt, race_world (interleave contended (race Start Stop asleep)),
           race_effects (interleave contended (race Start Stop asleep))) \/
   (command Stop ;; command Start) asleep =
     Some (tt, race_world (interleave contended (race Start Stop asleep)),
           race_effects (interleave contended (race Start Stop asleep)))).
Proof.
  split; [reflexivity|]. split; [split; reflexivity|].
  apply (concurrent_calls_serialise Start Stop contended asleep);
    [reflexivity | split; reflexivity].
Defined.

(** X6 in the middle of a stop and a start. *)
Lemma concurrent_calls_exclude_midway :
  mutex_free asleep /\
  exclusive StopSimulation_body StartSimulation_body
    (interleave midway (race Stop Start asleep)).
Proof.
  split; [reflexivity|].
  apply (concurrent_calls_exclude Stop Start midway asleep); reflexivity.
Defined.

(** X7 from the middle of a stop and a start. *)
Lemma concurrent_calls_complete_midway :
  mutex_free asleep /\
  exists more,
    (List.length more <=
       remaining (interleave midway (race Stop Start asleep)))%nat /\
    finished (interleave (midway ++ more) (race Stop Start asleep)).
Proof.
  split; [reflexivity|].
  apply (concurrent_calls_complete Stop Start midway asleep); reflexivity.
Defined.

(** X8 in the middle of a stop and a start. *)
Lemma concurrent_calls_data_midway :
  mutex_free (asleep_in RUNNING) /\
  exists l w',
    In l [[]; [Stop]; [Start]; [Stop; Start]; [Start; Stop]] /\
    final (commands l (asleep_in RUNNING)) = Some w' /\
    this (race_world (interleave midway (race Stop Start (asleep_in RUNNING))))
      = this w'.
Proof.
  split; [reflexivity|].
  apply (concurrent_calls_data Stop Start midway (asleep_in RUNNING));
    reflexivity.
Defined.


